(** * ccflare: response classification, account attempts and OAuth provisioning

    A shallow embedding of three TypeScript modules of the proxy:

    - the response processor ([handleRateLimitResponse],
      [handleNonSuccessResponse], [updateAccountMetadata],
      [processProxyResponse]),
    - the proxy operations ([proxyUnauthenticated], [proxyWithAccount]),
    - the OAuth flow ([begin], [complete], [createAnthropicApiKey],
      [createAccountWithOAuth], [createAccountWithApiKey]).

    Conventions of the embedding.

    - A synchronous JavaScript evaluation ends in a [Completion]: a normal
      value or a thrown error.  A promise that has settled is a [Settled]
      value.  [await] turns a rejection into a throw; an [async] function
      turns the throw of its body into a rejection, and a promise returned
      by its body (without [await]) becomes its own result.
    - The writes of the request path go to the async writer: the queue is a
      list of database operations in enqueue order, part of the [World] that
      every operation threads.
    - Logger calls have no effect on the state modelled here and are left
      out, except where evaluating their argument can throw
      ([Date.prototype.toISOString]).
    - JavaScript numbers that the code uses as integers (status codes,
      millisecond timestamps, tiers) are [Z]. *)

From Stdlib Require Import ZArith List String Bool Lia.
Import ListNotations.

Local Open Scope string_scope.
Local Open Scope list_scope.
Local Open Scope Z_scope.

(* ------------------------------------------------------------------ *)
(** * JavaScript values the code relies on *)

Module Js.

(** Errors that travel through [throw], [catch] and promise rejection. *)
Inductive JsError : Type :=
| Error (message : string)
| RangeError (message : string)
| AuthError (message : string)
| TransientAuthError (message : string)
| ProviderError (message provider : string) (statusCode : Z)
                (originalError : string)
| ThrownValue (printed : string).

(** [error instanceof Error ? error.message : String(error)] *)
Definition errorMessage (e : JsError) : string :=
  match e with
  | Error m | RangeError m | AuthError m | TransientAuthError m => m
  | ProviderError m _ _ _ => m
  | ThrownValue s => s
  end.

(** The result of evaluating a synchronous expression. *)
Inductive Completion (A : Type) : Type :=
| Normal (a : A)
| Abrupt (e : JsError).
Arguments Normal {A} a.
Arguments Abrupt {A} e.

(** The state of a promise once it has settled. *)
Inductive Settled (A : Type) : Type :=
| Fulfilled (a : A)
| Rejected (e : JsError).
Arguments Fulfilled {A} a.
Arguments Rejected {A} e.

Definition mapSettled {A B} (f : A -> B) (p : Settled A) : Settled B :=
  match p with
  | Fulfilled a => Fulfilled (f a)
  | Rejected e => Rejected e
  end.

(** Truthiness of [string | null | undefined] and [number | undefined]. *)
Definition truthyString (s : option string) : bool :=
  match s with
  | Some v => negb (v =? "")%string
  | None => false
  end.

Definition truthyNumber (n : option Z) : bool :=
  match n with
  | Some v => negb (v =? 0)
  | None => false
  end.

(** [x || undefined] on an optional string. *)
Definition orUndefined (s : option string) : option string :=
  if truthyString s then s else None.

(** [x || ""] on an optional string. *)
Definition orEmpty (s : option string) : string :=
  match s with
  | Some v => v
  | None => ""
  end.

(** The largest time value of a [Date], in milliseconds either side of the
    epoch; [toISOString] throws a [RangeError] beyond it. *)
Definition MAX_TIME_VALUE : Z := 8640000000000000.

Definition validTimeValue (t : Z) : bool :=
  (Z.abs t <=? MAX_TIME_VALUE).

(** ** A state and exception monad for synchronous and awaited steps *)

Definition Eff (S A : Type) : Type := S -> Completion A * S.

Definition ret {S A} (a : A) : Eff S A := fun s => (Normal a, s).

Definition throw {S A} (e : JsError) : Eff S A := fun s => (Abrupt e, s).

Definition bind {S A B} (m : Eff S A) (k : A -> Eff S B) : Eff S B :=
  fun s =>
    match m s with
    | (Normal a, s') => k a s'
    | (Abrupt e, s') => (Abrupt e, s')
    end.

(** [try { body } catch (err) { handler }] *)
Definition tryCatch {S A} (body : Eff S A) (handler : JsError -> Eff S A)
    : Eff S A :=
  fun s =>
    match body s with
    | (Normal a, s') => (Normal a, s')
    | (Abrupt e, s') => handler e s'
    end.

(** [await p]: the value of a fulfilled promise, the throw of a rejected one. *)
Definition await {S A} (p : Settled A) : Eff S A :=
  match p with
  | Fulfilled a => ret a
  | Rejected e => throw e
  end.

(** The promise of an [async] function whose body evaluates to [c]: a
    promise returned by the body is adopted as it is, a throw rejects. *)
Definition async {A} (c : Completion (Settled A)) : Settled A :=
  match c with
  | Normal p => p
  | Abrupt e => Rejected e
  end.

Definition runAsync {S A} (bodyOf : Eff S (Settled A)) (s : S) : Settled A * S :=
  let (c, s') := bodyOf s in (async c, s').

(** [await f(...)] where [f] is an [async] function of this development. *)
Definition awaitCall {S A} (f : S -> Settled A * S) : Eff S A :=
  fun s => let (p, s') := f s in await p s'.

End Js.
Export Js.

Notation "x <- m ;; k" := (bind m (fun x => k))
  (at level 61, m at next level, right associativity).
Notation "m ;;; k" := (bind m (fun _ => k))
  (at level 61, right associativity).

(* ------------------------------------------------------------------ *)
(** * The proxy: data *)

Module Proxy.

Definition Headers : Type := list (string * string).

(** The fields of an account that the request path reads. *)
Record Account : Type := mkAccount {
  id : string;
  name : string;
  api_key : option string;
  account_tier : Z
}.

Record Response : Type := mkResponse {
  status : Z;
  statusText : string;
  responseHeaders : Headers;
  responseBody : string
}.

Record Request : Type := mkRequest {
  method : string;
  headers : Headers;
  body : option string
}.

Record URL : Type := mkURL {
  pathname : string;
  search : string
}.

Record RequestMeta : Type := mkRequestMeta {
  requestMetaId : string;
  timestamp : Z;
  agentUsed : option string
}.

(** [ReturnType<Provider["parseRateLimit"]>] *)
Record RateLimitInfo : Type := mkRateLimitInfo {
  isRateLimited : bool;
  resetTime : option Z;
  statusHeader : option string;
  remaining : option Z
}.

(** The provider interface, as far as the request path calls it.  The two
    optional methods are absent ([None]) or present. *)
Record Provider : Type := mkProvider {
  providerName : string;
  buildUrl : string -> string -> option Account -> string;
  prepareHeaders : Headers -> option string -> option string -> Headers;
  parseRateLimit : Response -> RateLimitInfo;
  isStreamingResponse : option (Response -> bool);
  extractTierInfo : option (Response -> option Z)
}.

Record ProxyContext : Type := mkProxyContext {
  provider : Provider
}.

(** What the token manager writes when it rotates a token. *)
Record TokenRotation : Type := mkTokenRotation {
  newAccessToken : string;
  newExpiresAt : Z;
  newRefreshToken : option string
}.

(** The closures handed to [ctx.asyncWriter.enqueue], named after the
    [ctx.dbOps] method each one calls. *)
Inductive DbOp : Type :=
| MarkAccountRateLimited (accountId : string) (until : Z)
| UpdateAccountUsage (accountId : string)
| UpdateAccountRateLimitMeta (accountId : string) (statusTag : string)
                             (reset : option Z) (left : option Z)
| UpdateAccountTier (accountId : string) (tier : Z)
| UpdateAccountTokens (accountId : string) (rotation : TokenRotation).

(** The arguments of one upstream call ([makeProxyRequest]). *)
Record UpstreamRequest : Type := mkUpstreamRequest {
  targetUrl : string;
  upstreamMethod : string;
  upstreamHeaders : Headers;
  bodyStream : option string;
  hasBody : bool
}.

(** The options object handed to [forwardToClient]; the usage record of the
    request is built from it. *)
Record ForwardToClientOptions : Type := mkForwardToClientOptions {
  requestId : string;
  forwardMethod : string;
  path : string;
  account : option Account;
  requestHeaders : Headers;
  requestBody : option string;
  response : Response;
  forwardTimestamp : Z;
  retryAttempt : Z;
  failoverAttempts : nat;
  forwardAgentUsed : option string
}.

(** The state the request path acts on.  [asyncQueue] is the writer's
    queue in enqueue order; [detached] holds the operations that detached
    background tasks enqueue once their awaits settle; [upstreamCalls] and
    [clientForwards] record the calls made to the forwarder and to
    [forwardToClient]; [clock] counts the calls to collaborators, so that
    their answers may differ from one call to the next. *)
Record World : Type := mkWorld {
  asyncQueue : list DbOp;
  detached : list DbOp;
  upstreamCalls : list UpstreamRequest;
  clientForwards : list ForwardToClientOptions;
  clock : nat
}.

Definition emptyWorld : World := mkWorld [] [] [] [] 0%nat.

(** The message table of proxy-types, with the two messages the proxy
    operations use. *)
Record ErrorMessages : Type := mkErrorMessages {
  NO_ACCOUNTS : string;
  UNAUTHENTICATED_FAILED : string
}.

(** The collaborators of the proxy operations whose code lives in other
    modules: the token manager, the request forwarder and the response
    handler.  Each of them answers as a function of the call count and of
    its arguments.  The token manager may rotate the account's token on
    the way; [forwardToClient] may throw, or return a promise that fulfils
    or rejects. *)
Record Runtime : Type := mkRuntime {
  ERROR_MESSAGES : ErrorMessages;
  getValidAccessToken : nat -> Account -> option TokenRotation * Settled string;
  makeProxyRequest : nat -> UpstreamRequest -> Settled Response;
  forwardToClient : nat -> ForwardToClientOptions -> Completion (Settled Response)
}.

(* ------------------------------------------------------------------ *)
(** * Effects of the request path *)

Definition Task (A : Type) : Type := Eff World A.

(** [ctx.asyncWriter.enqueue(op)] *)
Definition enqueue (op : DbOp) : Task unit :=
  fun w => (Normal tt,
            mkWorld (asyncQueue w ++ [op]) (detached w) (upstreamCalls w)
                    (clientForwards w) (clock w)).

(** A detached [(async () => { ... })()] whose awaited part will enqueue
    [ops]. *)
Definition spawn (ops : list DbOp) : Task unit :=
  fun w => (Normal tt,
            mkWorld (asyncQueue w) (detached w ++ ops) (upstreamCalls w)
                    (clientForwards w) (clock w)).

Definition tick (w : World) : World :=
  mkWorld (asyncQueue w) (detached w) (upstreamCalls w) (clientForwards w)
          (S (clock w)).

(** The error [toISOString] throws on a time value out of range, with the
    message of JavaScriptCore, the engine of Bun, on which the proxy
    runs. *)
Definition invalidDate : JsError := RangeError "Invalid Date".

(** [new Date(t).toISOString()] *)
Definition toISOString (t : Z) : Task unit :=
  if validTimeValue t then ret tt else throw invalidDate.

(* ------------------------------------------------------------------ *)
(** * response-processor *)

Definition SUCCESS_STATUS_CODES : list Z := [200].

Definition setHas (s : list Z) (x : Z) : bool := existsb (Z.eqb x) s.

(** Without a truthy reset time the handler returns at once.  Otherwise
    its warning formats the reset time with [toISOString], and only then
    is the mark enqueued; the [RateLimitError] built afterwards is only
    logged. *)
Definition handleRateLimitResponse (account : Account)
    (rateLimitInfo : RateLimitInfo) (ctx : ProxyContext) : Task unit :=
  match resetTime rateLimitInfo with
  | None => ret tt
  | Some t =>
      if t =? 0 then ret tt
      else
        toISOString t ;;;
        enqueue (MarkAccountRateLimited (id account) t) ;;;
        ret tt
  end.

(** Logs the status and its class; writes nothing. *)
Definition handleNonSuccessResponse (account : Account) (response : Response)
    (_ctx : ProxyContext) : Task unit :=
  ret tt.

(** The usage increment, then the rate-limit meta update when the status
    header is truthy, then the detached tier task when the provider has
    [extractTierInfo]: it enqueues a tier update when the tier is truthy
    and differs from the stored one. *)
Definition updateAccountMetadata (account : Account) (response : Response)
    (ctx : ProxyContext) : Task unit :=
  enqueue (UpdateAccountUsage (id account)) ;;;
  let rateLimitInfo := parseRateLimit (provider ctx) response in
  (match statusHeader rateLimitInfo with
   | Some tag =>
       if (tag =? "")%string then ret tt
       else enqueue (UpdateAccountRateLimitMeta (id account) tag
                       (resetTime rateLimitInfo) (remaining rateLimitInfo))
   | None => ret tt
   end) ;;;
  match extractTierInfo (provider ctx) with
  | Some extract =>
      spawn (match extract response with
             | Some tier =>
                 if negb (tier =? 0) && negb (tier =? account_tier account)
                 then [UpdateAccountTier (id account) tier]
                 else []
             | None => []
             end)
  | None => ret tt
  end.

(** [ctx.provider.isStreamingResponse?.(response) ?? false] *)
Definition isStream (ctx : ProxyContext) (response : Response) : bool :=
  match isStreamingResponse (provider ctx) with
  | Some f => f response
  | None => false
  end.

(** Returns whether failover should occur. *)
Definition processProxyResponse (response : Response) (account : Account)
    (ctx : ProxyContext) : Task bool :=
  let isStream := isStream ctx response in
  let rateLimitInfo := parseRateLimit (provider ctx) response in
  if negb isStream && isRateLimited rateLimitInfo
     && truthyNumber (resetTime rateLimitInfo)
  then
    handleRateLimitResponse account rateLimitInfo ctx ;;;
    updateAccountMetadata account response ctx ;;;
    ret true
  else if negb (setHas SUCCESS_STATUS_CODES (status response)) then
    handleNonSuccessResponse account response ctx ;;;
    ret true
  else
    updateAccountMetadata account response ctx ;;;
    ret false.

(** [handleProxyError] only logs. *)
Definition handleProxyError (error : JsError) (account : option Account)
    : Task unit :=
  ret tt.

(* ------------------------------------------------------------------ *)
(** * Calls to the collaborators *)

(** The world once the token manager has answered: a rotation, if it
    performed one, has been handed to the async writer. *)
Definition afterToken (rt : Runtime) (account : Account) (w : World) : World :=
  match fst (getValidAccessToken rt (clock w) account) with
  | Some r => snd (enqueue (UpdateAccountTokens (id account) r) (tick w))
  | None => tick w
  end.

(** [await getValidAccessToken(account, ctx)] *)
Definition callGetValidAccessToken (rt : Runtime) (account : Account)
    : Task string :=
  fun w =>
    await (snd (getValidAccessToken rt (clock w) account))
          (afterToken rt account w).

Definition afterUpstream (call : UpstreamRequest) (w : World) : World :=
  mkWorld (asyncQueue w) (detached w) (upstreamCalls w ++ [call])
          (clientForwards w) (S (clock w)).

(** [await makeProxyRequest(targetUrl, method, headers, createBodyStream,
    hasBody)] *)
Definition callMakeProxyRequest (rt : Runtime) (call : UpstreamRequest)
    : Task Response :=
  fun w => await (makeProxyRequest rt (clock w) call) (afterUpstream call w).

Definition afterForward (options : ForwardToClientOptions) (w : World) : World :=
  mkWorld (asyncQueue w) (detached w) (upstreamCalls w)
          (clientForwards w ++ [options]) (S (clock w)).

(** [forwardToClient(options, ctx)], not awaited: the value of the call is
    the promise itself. *)
Definition callForwardToClient (rt : Runtime) (options : ForwardToClientOptions)
    : Task (Settled Response) :=
  fun w => (forwardToClient rt (clock w) options, afterForward options w).

(** [!!req.body] *)
Definition hasRequestBody (req : Request) : bool :=
  match body req with
  | Some _ => true
  | None => false
  end.

(* ------------------------------------------------------------------ *)
(** * proxy-operations *)

Definition proxyUnauthenticated (rt : Runtime) (req : Request) (url : URL)
    (requestMeta : RequestMeta) (requestBodyBuffer : option string)
    (createBodyStream : option string) (ctx : ProxyContext)
    : World -> Settled Response * World :=
  runAsync (
    let targetUrl := buildUrl (provider ctx) (pathname url) (search url) None in
    let headers := prepareHeaders (provider ctx) (headers req) None None in
    tryCatch
      (response <- callMakeProxyRequest rt
                     (mkUpstreamRequest targetUrl (method req) headers
                        createBodyStream (hasRequestBody req)) ;;
       callForwardToClient rt
         (mkForwardToClientOptions (requestMetaId requestMeta) (method req)
            (pathname url) None (Proxy.headers req) requestBodyBuffer response
            (timestamp requestMeta) 0 0%nat (agentUsed requestMeta)))
      (fun error =>
         throw (ProviderError (UNAUTHENTICATED_FAILED (ERROR_MESSAGES rt))
                  (providerName (provider ctx)) 502 (errorMessage error)))).

Definition proxyWithAccount (rt : Runtime) (req : Request) (url : URL)
    (account : Account) (requestMeta : RequestMeta)
    (requestBodyBuffer : option string) (createBodyStream : option string)
    (failoverAttempts : nat) (ctx : ProxyContext)
    : World -> Settled (option Response) * World :=
  runAsync (
    tryCatch
      (accessToken <- callGetValidAccessToken rt account ;;
       let headers := prepareHeaders (provider ctx) (headers req)
                        (Some accessToken) (orUndefined (api_key account)) in
       let targetUrl := buildUrl (provider ctx) (pathname url) (search url)
                          (Some account) in
       response <- callMakeProxyRequest rt
                     (mkUpstreamRequest targetUrl (method req) headers
                        createBodyStream (hasRequestBody req)) ;;
       shouldFailover <- processProxyResponse response account ctx ;;
       if (shouldFailover : bool) then ret (Fulfilled None)
       else
         forwarded <- callForwardToClient rt
           (mkForwardToClientOptions (requestMetaId requestMeta) (method req)
              (pathname url) (Some account) (Proxy.headers req)
              requestBodyBuffer response (timestamp requestMeta) 0
              failoverAttempts (agentUsed requestMeta)) ;;
         ret (mapSettled Some forwarded))
      (fun err =>
         handleProxyError err (Some account) ;;;
         ret (Fulfilled None))).

(* ------------------------------------------------------------------ *)
(** * Reading a queue and a run of attempts *)

(** The accounts whose usage counters the queued operations increment, one
    entry per [updateAccountUsage], in enqueue order. *)
Fixpoint usageIncrements (ops : list DbOp) : list string :=
  match ops with
  | [] => []
  | UpdateAccountUsage a :: rest => a :: usageIncrements rest
  | _ :: rest => usageIncrements rest
  end.

Definition isRateLimitMark (op : DbOp) : bool :=
  match op with
  | MarkAccountRateLimited _ _ => true
  | _ => false
  end.

Definition isRateLimitMeta (op : DbOp) : bool :=
  match op with
  | UpdateAccountRateLimitMeta _ _ _ _ => true
  | _ => false
  end.

(** [w] after [queued] has been handed to the async writer and detached
    tasks have been left to enqueue [background]. *)
Definition withWrites (w : World) (queued background : list DbOp) : World :=
  mkWorld (asyncQueue w ++ queued) (detached w ++ background)
          (upstreamCalls w) (clientForwards w) (clock w).

(** The rate-limit meta update of [updateAccountMetadata]: one operation
    when the status header is truthy, none otherwise. *)
Definition rateLimitMetaOps (account : Account) (info : RateLimitInfo)
    : list DbOp :=
  match statusHeader info with
  | Some tag =>
      if (tag =? "")%string then []
      else [UpdateAccountRateLimitMeta (id account) tag (resetTime info)
              (remaining info)]
  | None => []
  end.

(** What [updateAccountMetadata] hands to the writer at once ... *)
Definition metadataOps (ctx : ProxyContext) (account : Account)
    (response : Response) : list DbOp :=
  UpdateAccountUsage (id account)
  :: rateLimitMetaOps account (parseRateLimit (provider ctx) response).

(** ... and what its detached tier task enqueues later. *)
Definition tierOps (ctx : ProxyContext) (account : Account)
    (response : Response) : list DbOp :=
  match extractTierInfo (provider ctx) with
  | Some extract =>
      match extract response with
      | Some tier =>
          if negb (tier =? 0) && negb (tier =? account_tier account)
          then [UpdateAccountTier (id account) tier]
          else []
      | None => []
      end
  | None => []
  end.

(** The three-way test of [processProxyResponse], as a verdict. *)
Inductive Verdict : Type :=
| RateLimitFailover
| NonSuccessFailover
| Success.

Definition takesRateLimitBranch (ctx : ProxyContext) (response : Response) : bool :=
  let info := parseRateLimit (provider ctx) response in
  negb (isStream ctx response) && isRateLimited info
  && truthyNumber (resetTime info).

Definition verdict (ctx : ProxyContext) (response : Response) : Verdict :=
  if takesRateLimitBranch ctx response then RateLimitFailover
  else if negb (setHas SUCCESS_STATUS_CODES (status response)) then NonSuccessFailover
  else Success.

(** The upstream call [proxyWithAccount] makes for [account] once it holds
    [accessToken]. *)
Definition accountRequest (req : Request) (url : URL) (account : Account)
    (createBodyStream : option string) (ctx : ProxyContext)
    (accessToken : string) : UpstreamRequest :=
  mkUpstreamRequest
    (buildUrl (provider ctx) (pathname url) (search url) (Some account))
    (method req)
    (prepareHeaders (provider ctx) (headers req) (Some accessToken)
       (orUndefined (api_key account)))
    createBodyStream (hasRequestBody req).

(** The options [proxyWithAccount] hands to [forwardToClient]. *)
Definition accountForward (req : Request) (url : URL) (account : Account)
    (requestMeta : RequestMeta) (requestBodyBuffer : option string)
    (failoverAttempts : nat) (response : Response) : ForwardToClientOptions :=
  mkForwardToClientOptions (requestMetaId requestMeta) (method req)
    (pathname url) (Some account) (headers req) requestBodyBuffer response
    (timestamp requestMeta) 0 failoverAttempts (agentUsed requestMeta).

(** The upstream call [proxyUnauthenticated] makes, and the options it
    hands to [forwardToClient]. *)
Definition unauthenticatedRequest (req : Request) (url : URL)
    (createBodyStream : option string) (ctx : ProxyContext) : UpstreamRequest :=
  mkUpstreamRequest
    (buildUrl (provider ctx) (pathname url) (search url) None)
    (method req)
    (prepareHeaders (provider ctx) (headers req) None None)
    createBodyStream (hasRequestBody req).

Definition unauthenticatedForward (req : Request) (url : URL)
    (requestMeta : RequestMeta) (requestBodyBuffer : option string)
    (response : Response) : ForwardToClientOptions :=
  mkForwardToClientOptions (requestMetaId requestMeta) (method req)
    (pathname url) None (headers req) requestBodyBuffer response
    (timestamp requestMeta) 0 0%nat (agentUsed requestMeta).

(** The error [proxyUnauthenticated] throws from its [catch]. *)
Definition unauthenticatedFailure (rt : Runtime) (ctx : ProxyContext)
    (error : JsError) : JsError :=
  ProviderError (UNAUTHENTICATED_FAILED (ERROR_MESSAGES rt))
    (providerName (provider ctx)) 502 (errorMessage error).

(** What the collaborators answer to an attempt that starts in world [w]:
    no response at all (the token manager or the forwarder failed), or the
    upstream response. *)
Definition attemptResponse (rt : Runtime) (req : Request) (url : URL)
    (account : Account) (createBodyStream : option string)
    (ctx : ProxyContext) (w : World) : option Response :=
  match snd (getValidAccessToken rt (clock w) account) with
  | Rejected _ => None
  | Fulfilled accessToken =>
      match makeProxyRequest rt (S (clock w))
              (accountRequest req url account createBodyStream ctx accessToken) with
      | Rejected _ => None
      | Fulfilled response => Some response
      end
  end.

(** Does the attempt reach [updateAccountMetadata]?  It does on a 200 that
    is not rate-limited, and on the rate-limit branch once
    [handleRateLimitResponse] has returned. *)
Definition reachesMetadata (ctx : ProxyContext) (response : Response) : bool :=
  match verdict ctx response with
  | RateLimitFailover =>
      match resetTime (parseRateLimit (provider ctx) response) with
      | Some t => validTimeValue t
      | None => false
      end
  | NonSuccessFailover => false
  | Success => true
  end.

Definition attemptUsage (rt : Runtime) (req : Request) (url : URL)
    (account : Account) (createBodyStream : option string)
    (ctx : ProxyContext) (w : World) : list string :=
  match attemptResponse rt req url account createBodyStream ctx w with
  | Some response => if reachesMetadata ctx response then [id account] else []
  | None => []
  end.

(** A request that fails over on every account of [accounts], in order:
    each attempt starts in the world the previous one left and resolves to
    [null].  The result is the list of the worlds in which the attempts
    started, and the world the last one left. *)
Fixpoint failoverChain (rt : Runtime) (req : Request) (url : URL)
    (requestMeta : RequestMeta) (requestBodyBuffer : option string)
    (createBodyStream : option string) (ctx : ProxyContext)
    (accounts : list Account) (failoverAttempts : nat) (w : World)
    : option (list World * World) :=
  match accounts with
  | [] => Some ([], w)
  | account :: rest =>
      match proxyWithAccount rt req url account requestMeta requestBodyBuffer
              createBodyStream failoverAttempts ctx w with
      | (Fulfilled None, w1) =>
          match failoverChain rt req url requestMeta requestBodyBuffer
                  createBodyStream ctx rest (S failoverAttempts) w1 with
          | Some (starts, w2) => Some (w :: starts, w2)
          | None => None
          end
      | _ => None
      end
  end.

(** The usage increments of a chain of attempts: for each account and the
    world its attempt started in, what [attemptUsage] gives. *)
Fixpoint chainUsage (rt : Runtime) (req : Request) (url : URL)
    (createBodyStream : option string) (ctx : ProxyContext)
    (accounts : list Account) (starts : list World) : list string :=
  match accounts, starts with
  | account :: rest, w :: starts' =>
      attemptUsage rt req url account createBodyStream ctx w
      ++ chainUsage rt req url createBodyStream ctx rest starts'
  | _, _ => []
  end.

End Proxy.

(* ------------------------------------------------------------------ *)
(** * The OAuth flow *)

Module OAuthFlow.

Inductive Mode : Type := max | console.

Definition isConsole (m : Mode) : bool :=
  match m with
  | console => true
  | max => false
  end.

Record PKCEChallenge : Type := mkPKCEChallenge {
  verifier : string;
  challenge : string
}.

Record OAuthProviderConfig : Type := mkOAuthProviderConfig {
  authorizeUrl : string;
  tokenUrl : string;
  clientId : string;
  redirectUri : string
}.

Record OAuthTokens : Type := mkOAuthTokens {
  accessToken : string;
  refreshToken : option string;
  expiresAt : Z
}.

Record OAuthProvider : Type := mkOAuthProvider {
  getOAuthConfig : Mode -> OAuthProviderConfig;
  generateAuthUrl : OAuthProviderConfig -> PKCEChallenge -> string;
  exchangeCode : string -> string -> OAuthProviderConfig -> Settled OAuthTokens
}.

Record BeginOptions : Type := mkBeginOptions {
  beginName : string;
  beginMode : Mode;
  beginBaseUrl : option string
}.

Record BeginResult : Type := mkBeginResult {
  sessionId : string;
  authUrl : string;
  pkce : PKCEChallenge;
  oauthConfig : OAuthProviderConfig;
  mode : Mode;
  baseUrl : option string
}.

Record CompleteOptions : Type := mkCompleteOptions {
  completeSessionId : string;
  code : string;
  tier : option Z;
  completeName : string
}.

Inductive AuthType : Type := oauth | api_key.

Record AccountCreated : Type := mkAccountCreated {
  createdId : string;
  createdName : string;
  createdTier : Z;
  createdProvider : string;
  authType : AuthType
}.

(** One row of the [accounts] table, with the columns the two [INSERT]
    statements name; [None] is SQL [NULL]. *)
Record AccountRow : Type := mkAccountRow {
  row_id : string;
  row_name : string;
  row_provider : string;
  row_api_key : option string;
  row_refresh_token : option string;
  row_access_token : option string;
  row_expires_at : option Z;
  row_created_at : Z;
  row_request_count : Z;
  row_total_requests : Z;
  row_account_tier : Z;
  row_base_url : option string
}.

(** The answer of the console endpoint to [fetch].  The body is read with
    [response.json()] and cast, unchecked, to [{ raw_key: string }]:
    [json_raw_key] is the [raw_key] member of the body that was read, [None]
    when the body has none. *)
Record FetchResponse : Type := mkFetchResponse {
  ok : bool;
  fetchStatusText : string;
  json_raw_key : Settled (option string)
}.

(** What the flow takes from its surroundings: the provider registry, the
    PKCE generator, the runtime configuration, [crypto.randomUUID],
    [Date.now] and [fetch] on the key-creation endpoint.  The ones that
    answer differently from call to call take the call count. *)
Record Platform : Type := mkPlatform {
  getOAuthProvider : string -> option OAuthProvider;
  generatePKCE : nat -> Settled PKCEChallenge;
  runtimeClientId : string;
  randomUUID : nat -> string;
  dateNow : nat -> Z;
  fetchCreateApiKey : nat -> string -> Settled FetchResponse
}.

(** The database and the count of calls made to the platform. *)
Record Store : Type := mkStore {
  accounts : list AccountRow;
  calls : nat
}.

Definition Flow (A : Type) : Type := Eff Store A.

Definition nextCall {A} (f : nat -> A) : Flow A :=
  fun st => (Normal (f (calls st)), mkStore (accounts st) (S (calls st))).

(** [this.dbOps.getAllAccounts()] *)
Definition getAllAccounts : Flow (list AccountRow) :=
  fun st => (Normal (accounts st), st).

(** [db.run("INSERT INTO accounts ...", [...])]: the row is appended.  The
    schema of the table is not part of these modules; the statement is
    taken to succeed. *)
Definition insertAccount (row : AccountRow) : Flow unit :=
  fun st => (Normal tt, mkStore (accounts st ++ [row]) (calls st)).

Definition withClientId (c : OAuthProviderConfig) (cid : string)
    : OAuthProviderConfig :=
  mkOAuthProviderConfig (authorizeUrl c) (tokenUrl c) cid (redirectUri c).

Definition begin (pf : Platform) (opts : BeginOptions)
    : Store -> Settled BeginResult * Store :=
  runAsync (
    let name := beginName opts in
    existingAccounts <- getAllAccounts ;;
    if existsb (fun a => (row_name a =? name)%string) existingAccounts then
      throw (Error ("Account with name '" ++ name ++ "' already exists"))
    else
      match getOAuthProvider pf "anthropic" with
      | None => throw (Error "Anthropic OAuth provider not found")
      | Some oauthProvider =>
          generated <- nextCall (generatePKCE pf) ;;
          pkce <- await generated ;;
          let oauthConfig :=
            withClientId (getOAuthConfig oauthProvider (beginMode opts))
                         (runtimeClientId pf) in
          let authUrl := generateAuthUrl oauthProvider oauthConfig pkce in
          sessionId <- nextCall (randomUUID pf) ;;
          ret (Fulfilled (mkBeginResult sessionId authUrl pkce oauthConfig
                            (beginMode opts) (beginBaseUrl opts)))
      end).

(** Declared to return a string; what it returns is the [raw_key] member
    of the body as it was read, which nothing checks to be there. *)
Definition createAnthropicApiKey (pf : Platform) (accessToken : string)
    (baseUrl : option string) : Store -> Settled (option string) * Store :=
  runAsync (
    if truthyString baseUrl
       && negb (orEmpty baseUrl =? "https://api.anthropic.com")%string
    then
      throw (Error "Custom base URL accounts should use direct API key input, not OAuth API key creation")
    else
      fetched <- nextCall (fun n => fetchCreateApiKey pf n accessToken) ;;
      response <- await fetched ;;
      if negb (ok response) then
        throw (Error ("Failed to create API key: " ++ fetchStatusText response))
      else
        raw_key <- await (json_raw_key response) ;;
        ret (Fulfilled raw_key)).

Definition createAccountWithOAuth (pf : Platform) (id name : string)
    (tokens : OAuthTokens) (tier : Z) (baseUrl : option string)
    : Flow AccountCreated :=
  now <- nextCall (dateNow pf) ;;
  insertAccount
    (mkAccountRow id name "anthropic" None
       (Some (orEmpty (refreshToken tokens))) (Some (accessToken tokens))
       (Some (expiresAt tokens)) now 0 0 tier (orUndefined baseUrl)) ;;;
  ret (mkAccountCreated id name tier "anthropic" oauth).

(** The key is bound as it was returned: a missing [raw_key] is stored as
    [NULL]. *)
Definition createAccountWithApiKey (pf : Platform) (id name : string)
    (apiKey : option string) (tier : Z) (baseUrl : option string)
    : Flow AccountCreated :=
  now <- nextCall (dateNow pf) ;;
  insertAccount
    (mkAccountRow id name "anthropic" apiKey None None None now 0 0
       tier (orUndefined baseUrl)) ;;;
  ret (mkAccountCreated id name tier "anthropic" api_key).

Definition complete (pf : Platform) (opts : CompleteOptions)
    (flowData : BeginResult) : Store -> Settled AccountCreated * Store :=
  runAsync (
    let tier := match tier opts with Some t => t | None => 1 end in
    let name := completeName opts in
    match getOAuthProvider pf "anthropic" with
    | None => throw (Error "Anthropic OAuth provider not found")
    | Some oauthProvider =>
        tokens <- await (exchangeCode oauthProvider (code opts)
                           (verifier (pkce flowData)) (oauthConfig flowData)) ;;
        accountId <- nextCall (randomUUID pf) ;;
        if isConsole (mode flowData) || negb (truthyString (refreshToken tokens))
        then
          if truthyString (baseUrl flowData) then
            throw (Error "Console mode with custom base URL should use direct API key input, not OAuth flow")
          else
            apiKey <- awaitCall (createAnthropicApiKey pf (accessToken tokens)
                                   (baseUrl flowData)) ;;
            created <- createAccountWithApiKey pf accountId name apiKey tier
                         (baseUrl flowData) ;;
            ret (Fulfilled created)
        else
          created <- createAccountWithOAuth pf accountId name tokens tier
                       (baseUrl flowData) ;;
          ret (Fulfilled created)
    end).

Definition isNull {A} (column : option A) : bool :=
  match column with
  | None => true
  | Some _ => false
  end.

(** The auth-type invariant of a stored account: an [oauth] account has no
    API key and has its two tokens and their expiry; an [api_key] account
    has its key and none of the three. *)
Definition authTypeInvariant (t : AuthType) (row : AccountRow) : bool :=
  match t with
  | oauth =>
      isNull (row_api_key row)
      && negb (isNull (row_access_token row))
      && negb (isNull (row_refresh_token row))
      && negb (isNull (row_expires_at row))
  | api_key =>
      negb (isNull (row_api_key row))
      && isNull (row_access_token row)
      && isNull (row_refresh_token row)
      && isNull (row_expires_at row)
  end.

End OAuthFlow.

(* ------------------------------------------------------------------ *)
(** * Concrete accounts, responses and collaborators

    Small closed inputs on which the operations are evaluated. *)

Module Samples.
Import Proxy.

Definition acctA : Account := mkAccount "acct-a" "alpha" None 1.
Definition acctB : Account := mkAccount "acct-b" "beta" None 5.

Definition r200 : Response := mkResponse 200 "OK" [] "{}".
Definition r429 : Response := mkResponse 429 "Too Many Requests" [] "".
Definition r529 : Response := mkResponse 529 "Overloaded" [] "".

Definition resetAt : Z := 1700000600000.

(** A parser that reports a limit with a reset time on a 429, with or
    without a status tag. *)
Definition parse429 (tag : option string) (r : Response) : RateLimitInfo :=
  if status r =? 429
  then mkRateLimitInfo true (Some resetAt) tag (Some 0)
  else mkRateLimitInfo false None None None.

Definition sampleProvider (tag : option string)
    (streaming : option (Response -> bool)) : Provider :=
  mkProvider "anthropic"
    (fun p q _ => ("https://api.anthropic.com" ++ p ++ q)%string)
    (fun incoming token key =>
       match token, key with
       | Some t, _ => ("authorization", ("Bearer " ++ t)%string) :: incoming
       | None, Some k => ("x-api-key", k) :: incoming
       | None, None => incoming
       end)
    (parse429 tag) streaming None.

(** Every response is a stream of events. *)
Definition streamingCtx : ProxyContext :=
  mkProxyContext (sampleProvider (Some "rejected") (Some (fun _ => true))).

(** No response is a stream; limits come with a status tag. *)
Definition taggedCtx : ProxyContext :=
  mkProxyContext (sampleProvider (Some "rejected") (Some (fun _ => false))).

(** No response is a stream; limits come without a status tag. *)
Definition untaggedCtx : ProxyContext :=
  mkProxyContext (sampleProvider None None).

Definition messages : ErrorMessages :=
  mkErrorMessages "No active accounts available"
                  "Failed to proxy request without authentication".

(** The upstream answers 429 to the first account and 200 to the others;
    tokens are valid; the response handler hands the response on. *)
Definition upstreamByAccount (_ : nat) (call : UpstreamRequest) : Settled Response :=
  match upstreamHeaders call with
  | (_, "Bearer token-acct-a") :: _ => Fulfilled r429
  | _ => Fulfilled r200
  end.

Definition tokenOf (_ : nat) (a : Account) : option TokenRotation * Settled string :=
  (None, Fulfilled ("token-" ++ id a)%string).

Definition rtFailover : Runtime :=
  mkRuntime messages tokenOf upstreamByAccount
    (fun _ options => Normal (Fulfilled (response options))).

(** As [rtFailover], but the promise of the response handler rejects. *)
Definition rtForwardRejects : Runtime :=
  mkRuntime messages tokenOf upstreamByAccount
    (fun _ _ => Normal (Rejected (Error "usage worker is gone"))).

(** The upstream cannot be reached. *)
Definition rtUnreachable : Runtime :=
  mkRuntime messages tokenOf
    (fun _ _ => Rejected (Error "connect ECONNREFUSED"))
    (fun _ options => Normal (Fulfilled (response options))).

Definition postMessages : Request :=
  mkRequest "POST" [("content-type", "application/json")] (Some "{}").
Definition messagesUrl : URL := mkURL "/v1/messages" "".
Definition meta1 : RequestMeta := mkRequestMeta "req-1" 1700000000000 None.

Definition buffered : option string := Some "{}".

(** The worlds of a request that fails over on [acctA] and succeeds on
    [acctB]. *)
Definition afterA : World :=
  snd (proxyWithAccount rtFailover postMessages messagesUrl acctA meta1
         buffered buffered 0 taggedCtx emptyWorld).
Definition afterB : World :=
  snd (proxyWithAccount rtFailover postMessages messagesUrl acctB meta1
         buffered buffered 1 taggedCtx afterA).

End Samples.

Module OAuthSamples.
Import OAuthFlow.

Definition maxTokens : OAuthTokens :=
  mkOAuthTokens "at-1" (Some "rt-1") 1700003600000.

Definition anthropic (tokens : Settled OAuthTokens) : OAuthProvider :=
  mkOAuthProvider
    (fun _ => mkOAuthProviderConfig "https://claude.ai/oauth/authorize"
                "https://console.anthropic.com/v1/oauth/token" ""
                "https://console.anthropic.com/oauth/code/callback")
    (fun c _ => authorizeUrl c)
    (fun _ _ _ => tokens).

(** A platform whose token exchange answers [tokens] and whose console
    endpoint issues the key ["sk-ant-1"]. *)
Definition platform (tokens : Settled OAuthTokens) : Platform :=
  mkPlatform
    (fun providerName =>
       if (providerName =? "anthropic")%string then Some (anthropic tokens)
       else None)
    (fun _ => Fulfilled (mkPKCEChallenge "verifier" "challenge"))
    "client-1"
    (fun n => if Nat.eqb n 0 then "uuid-0" else "uuid-n")
    (fun _ => 1700000000000)
    (fun _ _ =>
       Fulfilled (mkFetchResponse true "OK" (Fulfilled (Some "sk-ant-1")))).

Definition flowOf (m : Mode) (base : option string) : BeginResult :=
  mkBeginResult "session-1" "https://claude.ai/oauth/authorize"
    (mkPKCEChallenge "verifier" "challenge")
    (getOAuthConfig (anthropic (Fulfilled maxTokens)) m) m base.

Definition completeWork : CompleteOptions :=
  mkCompleteOptions "session-1" "code-1" (Some 5) "work".

Definition emptyStore : Store := mkStore [] 0.

Definition workRow : AccountRow :=
  mkAccountRow "uuid-9" "work" "anthropic" None (Some "rt-0") (Some "at-0")
    (Some 1700000000000) 1690000000000 12 40 5 None.

Definition storeWithWork : Store := mkStore [workRow] 0.

End OAuthSamples.

(* ------------------------------------------------------------------ *)
(** * Further readings of the queue *)

Module QueueReading.
Import Proxy.

(** The account a queued operation writes to. *)
Definition opAccount (op : DbOp) : string :=
  match op with
  | MarkAccountRateLimited a _ => a
  | UpdateAccountUsage a => a
  | UpdateAccountRateLimitMeta a _ _ _ => a
  | UpdateAccountTier a _ => a
  | UpdateAccountTokens a _ => a
  end.

(** The rate-limit marks among the queued operations, in enqueue order:
    the account and the time it is limited until. *)
Fixpoint rateLimitMarks (ops : list DbOp) : list (string * Z) :=
  match ops with
  | [] => []
  | MarkAccountRateLimited a t :: rest => (a, t) :: rateLimitMarks rest
  | _ :: rest => rateLimitMarks rest
  end.

End QueueReading.

Module MoreSamples.
Import Proxy Samples.

(** A reset time beyond the range of a [Date]. *)
Definition farReset : Z := 10000000000000000.

Definition farResetProvider : Provider :=
  mkProvider "anthropic"
    (fun p q _ => ("https://api.anthropic.com" ++ p ++ q)%string)
    (fun incoming _ _ => incoming)
    (fun r => mkRateLimitInfo true (Some farReset) (Some "rejected") None)
    None None.

Definition farResetCtx : ProxyContext := mkProxyContext farResetProvider.

(** A provider that reports tier 20 for every response. *)
Definition tierProvider : Provider :=
  mkProvider "anthropic"
    (fun p q _ => ("https://api.anthropic.com" ++ p ++ q)%string)
    (fun incoming _ _ => incoming)
    (parse429 (Some "allowed"))
    None (Some (fun _ => Some 20)).

Definition tierCtx : ProxyContext := mkProxyContext tierProvider.

(** The token manager refuses every account. *)
Definition rtNoToken : Runtime :=
  mkRuntime messages
    (fun _ _ => (None, Rejected (AuthError "refresh token revoked")))
    upstreamByAccount
    (fun _ options => Normal (Fulfilled (response options))).

End MoreSamples.
(* ------------------------------------------------------------------ *)
(** * The dashboard: account dialogs and the accounts tab

    The event handlers of three React components.  A handler reads the
    state and the props of the render it was created in and ends in calls
    to the state setters; here it is a function from that state to the
    state after its setters have been applied, in an [Eff] over the
    component's state, which also records the calls the handler makes to
    its props, to the API client and to [window].  A character of a string
    stands for one UTF-16 code unit below 256. *)

Module Dashboard.

(** The account of the dashboard API, as far as the handlers read it. *)
Record Account : Type := mkAccount {
  id : string;
  name : string;
  tier : Z;
  paused : bool
}.

(** ** [String.prototype.trim] *)

(** White space and line terminators among the code units below 256: tab,
    line feed, vertical tab, form feed, carriage return, space and
    no-break space. *)
Definition isWhiteSpace (c : Ascii.ascii) : bool :=
  let n := Ascii.nat_of_ascii c in
  (Nat.leb 9 n && Nat.leb n 13) || Nat.eqb n 32 || Nat.eqb n 160.

Fixpoint trimStartChars (cs : list Ascii.ascii) : list Ascii.ascii :=
  match cs with
  | [] => []
  | c :: rest => if isWhiteSpace c then trimStartChars rest else cs
  end.

Definition trim (s : string) : string :=
  string_of_list_ascii
    (rev (trimStartChars (rev (trimStartChars (list_ascii_of_string s))))).

(** ** AccountEditDialog *)

Record FormData : Type := mkFormData {
  formName : string;
  formTier : Z;
  formPaused : bool;
  rateLimitOverrideEnabled : bool;
  customLimit : Z;
  resetWindowMinutes : Z
}.

(** [Record<string, string>] with the three keys the dialog uses; [None]
    is an absent key. *)
Record FormErrors : Type := mkFormErrors {
  nameError : option string;
  customLimitError : option string;
  resetWindowMinutesError : option string
}.

Record RateLimitOverride : Type := mkRateLimitOverride {
  enabled : bool;
  overrideLimit : option Z;
  overrideWindow : option Z
}.

Record AccountUpdates : Type := mkAccountUpdates {
  newName : option string;
  newTier : option Z;
  newPaused : option bool;
  rateLimitOverride : option RateLimitOverride
}.

(** The value the form state is created with: [account?.name || ""],
    [account?.tier || 1], [account?.paused || false], and the override
    switched off with its defaults. *)
Definition defaultFormData (account : option Account) : FormData :=
  mkFormData
    (match account with Some a => name a | None => "" end)
    (match account with
     | Some a => if tier a =? 0 then 1 else tier a
     | None => 1
     end)
    (match account with Some a => paused a | None => false end)
    false 1000 60.

(** The state of the form once the dialog has mounted.  The initializer
    passed to the third [useState] runs during the first render and, when
    there is an account, sets the form from the account's own name, tier
    and pause flag; without an account the form keeps the value it was
    created with. *)
Definition initialFormData (account : option Account) : FormData :=
  match account with
  | Some a => mkFormData (name a) (tier a) (paused a) false 1000 60
  | None => defaultFormData account
  end.

(** Whether a key is present in an object. *)
Definition hasKey {A} (field : option A) : bool :=
  match field with
  | Some _ => true
  | None => false
  end.

(** [Object.keys(errors).length] *)
Definition errorCount (e : FormErrors) : nat :=
  ((if hasKey (nameError e) then 1 else 0)
   + (if hasKey (customLimitError e) then 1 else 0)
   + (if hasKey (resetWindowMinutesError e) then 1 else 0))%nat.

(** [validateForm]: the errors it sets, and whether there are none. *)
Definition validateForm (formData : FormData) : FormErrors * bool :=
  let trimmedName := trim (formName formData) in
  let nameProblem :=
    if (trimmedName =? "")%string then Some "Account name cannot be empty"
    else if Nat.ltb 100 (String.length trimmedName)
         then Some "Account name must be 100 characters or less"
         else None in
  let limitProblem :=
    if rateLimitOverrideEnabled formData
       && ((customLimit formData <? 1) || (100000 <? customLimit formData))
    then Some "Custom limit must be between 1 and 100,000"
    else None in
  let windowProblem :=
    if rateLimitOverrideEnabled formData
       && ((resetWindowMinutes formData <? 1)
           || (1440 <? resetWindowMinutes formData))
    then Some "Reset window must be between 1 and 1,440 minutes"
    else None in
  let newErrors := mkFormErrors nameProblem limitProblem windowProblem in
  (newErrors, Nat.eqb (errorCount newErrors) 0).

(** [Object.keys(updates).length] *)
Definition updateCount (u : AccountUpdates) : nat :=
  ((if hasKey (newName u) then 1 else 0)
   + (if hasKey (newTier u) then 1 else 0)
   + (if hasKey (newPaused u) then 1 else 0)
   + (if hasKey (rateLimitOverride u) then 1 else 0))%nat.

(** [handleSubmit]: the errors it sets, if it gets to validate, and the
    call it makes to [onSave], if any. *)
Definition handleSubmit (account : option Account) (formData : FormData)
    : option FormErrors * option (string * AccountUpdates) :=
  match account with
  | None => (None, None)
  | Some a =>
      let (newErrors, valid) := validateForm formData in
      if negb valid then (Some newErrors, None)
      else
        let updates :=
          mkAccountUpdates
            (if negb (trim (formName formData) =? name a)%string
             then Some (trim (formName formData)) else None)
            (if negb (formTier formData =? tier a)
             then Some (formTier formData) else None)
            (if negb (Bool.eqb (formPaused formData) (paused a))
             then Some (formPaused formData) else None)
            (if rateLimitOverrideEnabled formData
             then Some (mkRateLimitOverride true
                          (Some (customLimit formData))
                          (Some (resetWindowMinutes formData)))
             else None) in
        (Some newErrors,
         if Nat.ltb 0 (updateCount updates) then Some (id a, updates) else None)
  end.

(** ** AccountsTab *)

(** The calls the tab makes to the API client and to its query hooks. *)
Inductive ApiCall : Type :=
| RenameAccount (accountId newName : string)
| UpdateAccountTier (accountId : string) (tier : Z)
| PauseAccount (accountId : string)
| ResumeAccount (accountId : string)
| UpdateAccountRateLimit (accountId : string) (override : RateLimitOverride)
| RemoveAccount (accountName confirm : string)
| LoadAccounts.

Record EditDialog : Type := mkEditDialog {
  isOpen : bool;
  editAccount : option Account;
  isLoading : bool
}.

Record ConfirmDelete : Type := mkConfirmDelete {
  show : bool;
  accountName : string;
  confirmInput : string
}.

(** The state of the tab the handlers below act on, with the API calls
    made so far. *)
Record Tab : Type := mkTab {
  confirmDelete : ConfirmDelete;
  editDialog : EditDialog;
  actionError : option string;
  apiCalls : list ApiCall
}.

(** The API behind the tab: how the [n]-th call is answered, and the
    message [formatError] gives for an error. *)
Record Backend : Type := mkBackend {
  answer : nat -> ApiCall -> Settled unit;
  formatError : JsError -> string
}.

Definition setEditDialog (f : EditDialog -> EditDialog) : Eff Tab unit :=
  fun s => (Normal tt,
            mkTab (confirmDelete s) (f (editDialog s)) (actionError s)
                  (apiCalls s)).

Definition setConfirmDelete (c : ConfirmDelete) : Eff Tab unit :=
  fun s => (Normal tt, mkTab c (editDialog s) (actionError s) (apiCalls s)).

Definition setActionError (e : option string) : Eff Tab unit :=
  fun s => (Normal tt, mkTab (confirmDelete s) (editDialog s) e (apiCalls s)).

(** [await api.call(...)] *)
Definition callApi (be : Backend) (call : ApiCall) : Eff Tab unit :=
  fun s =>
    await (answer be (List.length (apiCalls s)) call)
          (mkTab (confirmDelete s) (editDialog s) (actionError s)
                 (apiCalls s ++ [call])).

Definition handleSaveEdit (be : Backend) (accountId : string)
    (updates : AccountUpdates) : Tab -> Settled unit * Tab :=
  runAsync (
    setEditDialog (fun prev => mkEditDialog (isOpen prev) (editAccount prev) true) ;;;
    tryCatch
      ((if truthyString (newName updates)
        then callApi be (RenameAccount accountId (orEmpty (newName updates)))
        else ret tt) ;;;
       (match newTier updates with
        | Some t => callApi be (UpdateAccountTier accountId t)
        | None => ret tt
        end) ;;;
       (match newPaused updates with
        | Some true => callApi be (PauseAccount accountId)
        | Some false => callApi be (ResumeAccount accountId)
        | None => ret tt
        end) ;;;
       (match rateLimitOverride updates with
        | Some o => callApi be (UpdateAccountRateLimit accountId o)
        | None => ret tt
        end) ;;;
       callApi be LoadAccounts ;;;
       setEditDialog (fun _ => mkEditDialog false None false) ;;;
       setActionError None)
      (fun err =>
         setActionError (Some (formatError be err)) ;;;
         setEditDialog
           (fun prev => mkEditDialog (isOpen prev) (editAccount prev) false)) ;;;
    ret (Fulfilled tt)).

Definition handleConfirmDelete (be : Backend) : Tab -> Settled unit * Tab :=
  runAsync (
    current <- (fun s => (Normal (confirmDelete s), s)) ;;
    if negb (confirmInput current =? accountName current)%string then
      setActionError
        (Some "Account name does not match. Please type the exact account name.") ;;;
      ret (Fulfilled tt)
    else
      tryCatch
        (callApi be (RemoveAccount (accountName current) (confirmInput current)) ;;;
         callApi be LoadAccounts ;;;
         setConfirmDelete (mkConfirmDelete false "" "") ;;;
         setActionError None)
        (fun err => setActionError (Some (formatError be err))) ;;;
      ret (Fulfilled tt)).

(** The calls [handleSaveEdit] sets out to make for [updates], in the
    order of its statements. *)
Definition plannedCalls (accountId : string) (updates : AccountUpdates)
    : list ApiCall :=
  (if truthyString (newName updates)
   then [RenameAccount accountId (orEmpty (newName updates))] else [])
  ++ (match newTier updates with
      | Some t => [UpdateAccountTier accountId t]
      | None => []
      end)
  ++ (match newPaused updates with
      | Some true => [PauseAccount accountId]
      | Some false => [ResumeAccount accountId]
      | None => []
      end)
  ++ (match rateLimitOverride updates with
      | Some o => [UpdateAccountRateLimit accountId o]
      | None => []
      end)
  ++ [LoadAccounts].

(** Calls made one after the other on top of the calls in [log], up to and
    including the first the backend rejects: the calls made in all, and the
    error of the rejected one. *)
Fixpoint issue (be : Backend) (log calls : list ApiCall)
    : list ApiCall * option JsError :=
  match calls with
  | [] => (log, None)
  | call :: rest =>
      match answer be (List.length log) call with
      | Fulfilled _ => issue be (log ++ [call]) rest
      | Rejected e => (log ++ [call], Some e)
      end
  end.

(** ** AccountAddForm *)

Inductive AuthStep : Type := form | code | apikey.

Inductive Mode : Type := max | console.

Record NewAccount : Type := mkNewAccount {
  newAccountName : string;
  newAccountMode : Mode;
  newAccountTier : Z;
  newAccountBaseUrl : string
}.

(** What [onAddAccount] resolves to, besides [null]. *)
Inductive InitResult : Type :=
| OAuthStarted (authUrl sessionId : string)
| ApiKeyRequest (requiresApiKey : bool) (baseUrl : string).

(** The calls the form makes to its props and to [window]. *)
Inductive FormCall : Type :=
| OnAddAccount (params : NewAccount)
| OnCompleteAccount (sessionId : option string) (code : string)
| OnAddDirectAccount (name apiKey : string) (tier : Z) (baseUrl : string)
| OnCancel
| OnSuccess
| OnError (message : string)
| WindowOpen (url : option string).

Record AddForm : Type := mkAddForm {
  authStep : AuthStep;
  authCode : string;
  apiKey : string;
  sessionId : option string;
  newAccount : NewAccount;
  formCalls : list FormCall
}.

Definition blankAccount : NewAccount := mkNewAccount "" max 1 "".

Definition initialAddForm : AddForm :=
  mkAddForm form "" "" (Some "") blankAccount [].

(** The props of the form that answer with a promise, and whether
    [window] is defined. *)
Record FormProps : Type := mkFormProps {
  onAddAccount : nat -> NewAccount -> Settled (option InitResult);
  onCompleteAccount : nat -> option string -> string -> Settled unit;
  onAddDirectAccount : nat -> string -> string -> Z -> string -> Settled unit;
  windowDefined : bool
}.

Definition emit (call : FormCall) : Eff AddForm unit :=
  fun s => (Normal tt,
            mkAddForm (authStep s) (authCode s) (apiKey s) (sessionId s)
                      (newAccount s) (formCalls s ++ [call])).

Definition setAuthStep (step : AuthStep) : Eff AddForm unit :=
  fun s => (Normal tt,
            mkAddForm step (authCode s) (apiKey s) (sessionId s)
                      (newAccount s) (formCalls s)).

Definition setAuthCode (v : string) : Eff AddForm unit :=
  fun s => (Normal tt,
            mkAddForm (authStep s) v (apiKey s) (sessionId s) (newAccount s)
                      (formCalls s)).

Definition setApiKey (v : string) : Eff AddForm unit :=
  fun s => (Normal tt,
            mkAddForm (authStep s) (authCode s) v (sessionId s) (newAccount s)
                      (formCalls s)).

Definition setSessionId (v : option string) : Eff AddForm unit :=
  fun s => (Normal tt,
            mkAddForm (authStep s) (authCode s) (apiKey s) v (newAccount s)
                      (formCalls s)).

Definition setNewAccount (v : NewAccount) : Eff AddForm unit :=
  fun s => (Normal tt,
            mkAddForm (authStep s) (authCode s) (apiKey s) (sessionId s) v
                      (formCalls s)).

Definition readForm : Eff AddForm AddForm := fun s => (Normal s, s).

Definition isEmpty (s : string) : bool := (s =? "")%string.

Definition handleAddAccount (props : FormProps) : AddForm -> Settled unit * AddForm :=
  runAsync (
    s <- readForm ;;
    if isEmpty (newAccountName (newAccount s)) then
      emit (OnError "Account name is required") ;;; ret (Fulfilled tt)
    else if negb (isEmpty (newAccountBaseUrl (newAccount s))) then
      setAuthStep apikey ;;; ret (Fulfilled tt)
    else
      emit (OnAddAccount (newAccount s)) ;;;
      result <- await (onAddAccount props (List.length (formCalls s))
                         (newAccount s)) ;;
      match result with
      | None =>
          emit (OnError "Failed to initialize OAuth flow") ;;; ret (Fulfilled tt)
      | Some (ApiKeyRequest true _) => setAuthStep apikey ;;; ret (Fulfilled tt)
      | Some other =>
          let authUrl := match other with
                         | OAuthStarted u _ => Some u
                         | ApiKeyRequest _ _ => None
                         end in
          let sid := match other with
                     | OAuthStarted _ i => Some i
                     | ApiKeyRequest _ _ => None
                     end in
          setSessionId sid ;;;
          (if windowDefined props then emit (WindowOpen authUrl) else ret tt) ;;;
          setAuthStep code ;;;
          ret (Fulfilled tt)
      end).

Definition handleCodeSubmit (props : FormProps) : AddForm -> Settled unit * AddForm :=
  runAsync (
    s <- readForm ;;
    if isEmpty (authCode s) then
      emit (OnError "Authorization code is required") ;;; ret (Fulfilled tt)
    else
      emit (OnCompleteAccount (sessionId s) (authCode s)) ;;;
      await (onCompleteAccount props (List.length (formCalls s)) (sessionId s)
               (authCode s)) ;;;
      setAuthStep form ;;;
      setAuthCode "" ;;;
      setSessionId (Some "") ;;;
      setNewAccount blankAccount ;;;
      emit OnSuccess ;;;
      ret (Fulfilled tt)).

Definition handleApiKeySubmit (props : FormProps) : AddForm -> Settled unit * AddForm :=
  runAsync (
    s <- readForm ;;
    if isEmpty (apiKey s) then
      emit (OnError "API key is required") ;;; ret (Fulfilled tt)
    else
      emit (OnAddDirectAccount (newAccountName (newAccount s)) (apiKey s)
              (newAccountTier (newAccount s))
              (newAccountBaseUrl (newAccount s))) ;;;
      await (onAddDirectAccount props (List.length (formCalls s))
               (newAccountName (newAccount s)) (apiKey s)
               (newAccountTier (newAccount s))
               (newAccountBaseUrl (newAccount s))) ;;;
      setAuthStep form ;;;
      setApiKey "" ;;;
      setNewAccount blankAccount ;;;
      emit OnSuccess ;;;
      ret (Fulfilled tt)).

End Dashboard.

Module OAuthMoreSamples.
Import OAuthFlow OAuthSamples.

Definition beginHome : BeginOptions := mkBeginOptions "home" max None.

Definition completeHome : CompleteOptions :=
  mkCompleteOptions "session-1" "code-1" None "home".

(** What [begin] returns for ["home"] on the store that holds ["work"]. *)
Definition homeFlow : BeginResult :=
  mkBeginResult "uuid-n" "https://claude.ai/oauth/authorize"
    (mkPKCEChallenge "verifier" "challenge")
    (mkOAuthProviderConfig "https://claude.ai/oauth/authorize"
       "https://console.anthropic.com/v1/oauth/token" "client-1"
       "https://console.anthropic.com/oauth/code/callback")
    max None.

Definition homeCreated : AccountCreated :=
  mkAccountCreated "uuid-n" "home" 1 "anthropic" oauth.

(** A platform whose console endpoint answers 200 with a body that has no
    [raw_key]. *)
Definition keylessPlatform : Platform :=
  mkPlatform
    (getOAuthProvider (platform (Fulfilled maxTokens)))
    (generatePKCE (platform (Fulfilled maxTokens)))
    "client-1"
    (randomUUID (platform (Fulfilled maxTokens)))
    (dateNow (platform (Fulfilled maxTokens)))
    (fun _ _ => Fulfilled (mkFetchResponse true "OK" (Fulfilled None))).

(** The row [complete] stores for ["work"] on that platform. *)
Definition keylessRow : AccountRow :=
  mkAccountRow "uuid-0" "work" "anthropic" None None None None
    1700000000000 0 0 5 None.

End OAuthMoreSamples.

Module DashboardSamples.
Import Dashboard.

Definition work : Account := mkAccount "acc-1" "work" 5 false.

(** The form of the edit dialog after the name has been retyped with
    stray spaces, the account paused and an override switched on. *)
Definition editedForm : FormData :=
  mkFormData "  team  " 5 true true 500 30.

(** A backend that answers every call, and one that refuses tier
    updates. *)
Definition agreeable : Backend :=
  mkBackend (fun _ _ => Fulfilled tt) errorMessage.

Definition refusesTier : Backend :=
  mkBackend
    (fun _ call =>
       match call with
       | UpdateAccountTier _ _ => Rejected (Error "tier locked")
       | _ => Fulfilled tt
       end)
    errorMessage.

Definition idleTab : Tab :=
  mkTab (mkConfirmDelete false "" "") (mkEditDialog true (Some work) false)
        None [].

Definition deletingTab (typed : string) : Tab :=
  mkTab (mkConfirmDelete true "work" typed) (mkEditDialog false None false)
        None [].

(** Props whose OAuth initialisation answers with a session. *)
Definition oauthProps : FormProps :=
  mkFormProps
    (fun _ _ => Fulfilled (Some (OAuthStarted "https://claude.ai/oauth" "sess-7")))
    (fun _ _ _ => Fulfilled tt)
    (fun _ _ _ _ _ => Fulfilled tt)
    true.

(** Props whose completion fails. *)
Definition failingProps : FormProps :=
  mkFormProps
    (fun _ _ => Fulfilled (Some (OAuthStarted "https://claude.ai/oauth" "sess-7")))
    (fun _ _ _ => Rejected (Error "invalid code"))
    (fun _ _ _ _ _ => Fulfilled tt)
    true.

Definition namedForm (base : string) : AddForm :=
  mkAddForm form "" "" (Some "") (mkNewAccount "work" max 5 base) [].

Definition codeForm (typed : string) : AddForm :=
  mkAddForm code typed "" (Some "sess-7") (mkNewAccount "work" max 5 "")
            [OnAddAccount (mkNewAccount "work" max 5 "");
             WindowOpen (Some "https://claude.ai/oauth")].

End DashboardSamples.

(* ------------------------------------------------------------------ *)
(** * The response classifier *)

Section ResponseProcessor.
Import Proxy.

Lemma withWrites_nil (w : World) : withWrites w [] [] = w.
Proof.
  destruct w; unfold withWrites; simpl. now rewrite !app_nil_r.
Qed.

Lemma withWrites_app (w : World) (q1 q2 b1 b2 : list DbOp) :
  withWrites (withWrites w q1 b1) q2 b2 = withWrites w (q1 ++ q2) (b1 ++ b2).
Proof.
  unfold withWrites; simpl. now rewrite !app_assoc.
Qed.

Lemma enqueue_run (op : DbOp) (w : World) :
  enqueue op w = (Normal tt, withWrites w [op] []).
Proof.
  unfold enqueue, withWrites. now rewrite app_nil_r.
Qed.

Lemma spawn_run (ops : list DbOp) (w : World) :
  spawn ops w = (Normal tt, withWrites w [] ops).
Proof.
  unfold spawn, withWrites. now rewrite app_nil_r.
Qed.

(** [updateAccountMetadata] never throws; its writes are [metadataOps] and,
    from the detached task, [tierOps]. *)
Lemma updateAccountMetadata_run account response ctx w :
  updateAccountMetadata account response ctx w
  = (Normal tt, withWrites w (metadataOps ctx account response)
                             (tierOps ctx account response)).
Proof.
  unfold updateAccountMetadata, metadataOps, rateLimitMetaOps, tierOps, bind.
  rewrite enqueue_run.
  destruct (statusHeader (parseRateLimit (provider ctx) response)) as [tag|].
  - destruct (tag =? "")%string.
    + unfold ret. destruct (extractTierInfo (provider ctx)) as [extract|].
      * rewrite spawn_run, withWrites_app. reflexivity.
      * unfold ret. rewrite <- (withWrites_nil (withWrites w _ _)) at 1.
        now rewrite withWrites_app.
    + rewrite enqueue_run, withWrites_app.
      destruct (extractTierInfo (provider ctx)) as [extract|].
      * rewrite spawn_run, withWrites_app. reflexivity.
      * unfold ret. reflexivity.
  - unfold ret. destruct (extractTierInfo (provider ctx)) as [extract|].
    + rewrite spawn_run, withWrites_app. reflexivity.
    + unfold ret. rewrite <- (withWrites_nil (withWrites w _ _)) at 1.
      now rewrite withWrites_app.
Qed.

(** The rate-limit handler on a usable reset time: one mark, with that
    reset time. *)
Lemma handleRateLimitResponse_marks account info ctx w t :
  resetTime info = Some t -> t <> 0 -> validTimeValue t = true ->
  handleRateLimitResponse account info ctx w
  = (Normal tt, withWrites w [MarkAccountRateLimited (id account) t] []).
Proof.
  intros Hreset Hnz Hvalid. unfold handleRateLimitResponse.
  rewrite Hreset. apply Z.eqb_neq in Hnz. rewrite Hnz.
  unfold bind, toISOString. rewrite Hvalid. unfold ret.
  now rewrite enqueue_run.
Qed.

(** Beyond the range of [Date] the log line of the handler throws before
    anything is enqueued. *)
Lemma handleRateLimitResponse_throws account info ctx w t :
  resetTime info = Some t -> t <> 0 -> validTimeValue t = false ->
  handleRateLimitResponse account info ctx w
  = (Abrupt invalidDate, w).
Proof.
  intros Hreset Hnz Hvalid. unfold handleRateLimitResponse.
  rewrite Hreset. apply Z.eqb_neq in Hnz. rewrite Hnz.
  unfold bind, toISOString. now rewrite Hvalid.
Qed.

Lemma setHas_success (s : Z) :
  setHas SUCCESS_STATUS_CODES s = (s =? 200).
Proof.
  unfold setHas, SUCCESS_STATUS_CODES; simpl. now rewrite orb_false_r.
Qed.

Lemma truthyNumber_Some (n : option Z) :
  truthyNumber n = true -> exists t, n = Some t /\ t <> 0.
Proof.
  destruct n as [t|]; simpl; [|discriminate].
  intros H. exists t. split; [reflexivity|].
  apply negb_true_iff in H. now apply Z.eqb_neq.
Qed.

(** The three branches of [processProxyResponse]. *)
Lemma processProxyResponse_rate_limit response account ctx w t :
  takesRateLimitBranch ctx response = true ->
  resetTime (parseRateLimit (provider ctx) response) = Some t ->
  validTimeValue t = true ->
  processProxyResponse response account ctx w
  = (Normal true,
     withWrites w (MarkAccountRateLimited (id account) t
                   :: metadataOps ctx account response)
                  (tierOps ctx account response)).
Proof.
  intros Hbranch Hreset Hvalid.
  unfold processProxyResponse. unfold takesRateLimitBranch in Hbranch.
  rewrite Hbranch.
  apply andb_true_iff in Hbranch as [_ Htruthy].
  rewrite Hreset in Htruthy. simpl in Htruthy.
  apply negb_true_iff, Z.eqb_neq in Htruthy.
  unfold bind.
  rewrite (handleRateLimitResponse_marks _ _ _ _ t Hreset Htruthy Hvalid).
  rewrite updateAccountMetadata_run, withWrites_app. reflexivity.
Qed.

Lemma processProxyResponse_rate_limit_throws response account ctx w t :
  takesRateLimitBranch ctx response = true ->
  resetTime (parseRateLimit (provider ctx) response) = Some t ->
  validTimeValue t = false ->
  processProxyResponse response account ctx w
  = (Abrupt invalidDate, w).
Proof.
  intros Hbranch Hreset Hvalid.
  unfold processProxyResponse. unfold takesRateLimitBranch in Hbranch.
  rewrite Hbranch.
  apply andb_true_iff in Hbranch as [_ Htruthy].
  rewrite Hreset in Htruthy. simpl in Htruthy.
  apply negb_true_iff, Z.eqb_neq in Htruthy.
  unfold bind.
  now rewrite (handleRateLimitResponse_throws _ _ _ _ t Hreset Htruthy Hvalid).
Qed.

Lemma processProxyResponse_non_success response account ctx w :
  takesRateLimitBranch ctx response = false ->
  status response <> 200 ->
  processProxyResponse response account ctx w = (Normal true, w).
Proof.
  intros Hbranch Hstatus.
  unfold processProxyResponse. unfold takesRateLimitBranch in Hbranch.
  rewrite Hbranch, setHas_success.
  apply Z.eqb_neq in Hstatus. rewrite Hstatus. reflexivity.
Qed.

Lemma processProxyResponse_success response account ctx w :
  takesRateLimitBranch ctx response = false ->
  status response = 200 ->
  processProxyResponse response account ctx w
  = (Normal false,
     withWrites w (metadataOps ctx account response)
                  (tierOps ctx account response)).
Proof.
  intros Hbranch Hstatus.
  unfold processProxyResponse. unfold takesRateLimitBranch in Hbranch.
  rewrite Hbranch, setHas_success, Hstatus. simpl.
  unfold bind. now rewrite updateAccountMetadata_run.
Qed.

Lemma rateLimitMetaOps_meta account info :
  existsb isRateLimitMeta (rateLimitMetaOps account info)
  = truthyString (statusHeader info).
Proof.
  unfold rateLimitMetaOps, truthyString.
  destruct (statusHeader info) as [tag|]; [|reflexivity].
  now destruct (tag =? "")%string.
Qed.

Lemma rateLimitMetaOps_no_mark account info :
  existsb isRateLimitMark (rateLimitMetaOps account info) = false.
Proof.
  unfold rateLimitMetaOps.
  destruct (statusHeader info) as [tag|]; [|reflexivity].
  now destruct (tag =? "")%string.
Qed.

Lemma rateLimitMetaOps_no_usage account info :
  usageIncrements (rateLimitMetaOps account info) = [].
Proof.
  unfold rateLimitMetaOps.
  destruct (statusHeader info) as [tag|]; [|reflexivity].
  now destruct (tag =? "")%string.
Qed.

Lemma takesRateLimitBranch_stream ctx response :
  isStream ctx response = true -> takesRateLimitBranch ctx response = false.
Proof.
  intros H. unfold takesRateLimitBranch. now rewrite H.
Qed.

(** C1, as amended.  For every response that is not a stream and whose
    parsed rate-limit signal has [isRateLimited] true and a reset time
    that is present (non-zero, and within the range of a [Date]),
    [processProxyResponse] signals failover and enqueues, in this order,
    the rate-limit mark of the attempted account with exactly that reset
    time, a usage increment of the account, and a rate-limit meta update
    exactly when the status tag of the signal is present; this holds
    whatever the status and the other properties of the response are. *)
Theorem rate_limited_response_marks_and_fails_over
    response account ctx w t :
  isStream ctx response = false ->
  isRateLimited (parseRateLimit (provider ctx) response) = true ->
  resetTime (parseRateLimit (provider ctx) response) = Some t ->
  t <> 0 ->
  validTimeValue t = true ->
  exists w',
    processProxyResponse response account ctx w = (Normal true, w')
    /\ asyncQueue w'
       = asyncQueue w
         ++ MarkAccountRateLimited (id account) t
            :: UpdateAccountUsage (id account)
            :: rateLimitMetaOps account (parseRateLimit (provider ctx) response)
    /\ existsb isRateLimitMeta
         (rateLimitMetaOps account (parseRateLimit (provider ctx) response))
       = truthyString (statusHeader (parseRateLimit (provider ctx) response)).
Proof.
  intros Hstream Hlimited Hreset Hnz Hvalid.
  assert (Hbranch : takesRateLimitBranch ctx response = true).
  { unfold takesRateLimitBranch. rewrite Hstream, Hlimited, Hreset. simpl.
    apply Z.eqb_neq in Hnz. now rewrite Hnz. }
  eexists. split.
  - now apply processProxyResponse_rate_limit with (t := t).
  - split; [reflexivity | apply rateLimitMetaOps_meta].
Qed.

(** C3.  A response whose status is not 200 and whose signal is not
    rate-limited-with-reset makes the classifier signal failover and write
    nothing: the queue of the async writer and the detached work are as
    they were, so no usage increment, rate-limit mark, rate-limit meta or
    tier update is enqueued for the account. *)
Theorem non_success_fails_over_without_writes response account ctx w :
  status response <> 200 ->
  ~ (isRateLimited (parseRateLimit (provider ctx) response) = true
     /\ truthyNumber (resetTime (parseRateLimit (provider ctx) response)) = true) ->
  processProxyResponse response account ctx w = (Normal true, w).
Proof.
  intros Hstatus Hsignal.
  apply processProxyResponse_non_success; [|assumption].
  unfold takesRateLimitBranch.
  destruct (isRateLimited (parseRateLimit (provider ctx) response)) eqn:Hl;
    [|now rewrite andb_false_r].
  destruct (truthyNumber (resetTime (parseRateLimit (provider ctx) response)))
    eqn:Hr; [|now rewrite andb_false_r].
  exfalso. apply Hsignal. now split.
Qed.

(** C4.  A response with status exactly 200 that the classifier does not
    take down its rate-limit branch is a success: no failover is
    signalled, one usage increment of the account is enqueued, and a
    rate-limit meta update is enqueued if and only if the status tag of the
    parsed signal is present (a non-empty string, which is what the code
    tests). *)
Theorem success_increments_usage_and_updates_meta response account ctx w :
  status response = 200 ->
  takesRateLimitBranch ctx response = false ->
  exists w' added,
    processProxyResponse response account ctx w = (Normal false, w')
    /\ asyncQueue w' = asyncQueue w ++ added
    /\ usageIncrements added = [id account]
    /\ existsb isRateLimitMark added = false
    /\ existsb isRateLimitMeta added
       = truthyString (statusHeader (parseRateLimit (provider ctx) response)).
Proof.
  intros Hstatus Hbranch.
  exists (withWrites w (metadataOps ctx account response)
                       (tierOps ctx account response)),
         (metadataOps ctx account response).
  split; [now apply processProxyResponse_success|].
  split; [reflexivity|].
  unfold metadataOps; simpl.
  rewrite rateLimitMetaOps_no_usage, rateLimitMetaOps_no_mark,
    rateLimitMetaOps_meta.
  now repeat split.
Qed.

(** C9.  When the provider classifies the response as streaming, the
    rate-limit branch is not taken, whatever the parsed signal says: a
    status other than 200 is a failover that writes nothing, a status of
    200 is a success with the usual metadata update, and in neither case
    is a rate-limit mark enqueued. *)
Theorem streaming_response_never_marks response account ctx w :
  isStream ctx response = true ->
  takesRateLimitBranch ctx response = false
  /\ (status response <> 200 ->
      processProxyResponse response account ctx w = (Normal true, w))
  /\ (status response = 200 ->
      processProxyResponse response account ctx w
      = (Normal false, withWrites w (metadataOps ctx account response)
                                    (tierOps ctx account response)))
  /\ exists added,
      asyncQueue (snd (processProxyResponse response account ctx w))
      = asyncQueue w ++ added
      /\ existsb isRateLimitMark added = false.
Proof.
  intros Hstream.
  pose proof (takesRateLimitBranch_stream ctx response Hstream) as Hbranch.
  split; [assumption|].
  split; [now apply processProxyResponse_non_success|].
  split; [now apply processProxyResponse_success|].
  destruct (Z.eq_dec (status response) 200) as [H200|Hnot].
  - rewrite (processProxyResponse_success _ _ _ _ Hbranch H200).
    exists (metadataOps ctx account response). split; [reflexivity|].
    unfold metadataOps; simpl. apply rateLimitMetaOps_no_mark.
  - rewrite (processProxyResponse_non_success _ _ _ _ Hbranch Hnot).
    exists []. split; [now rewrite app_nil_r | reflexivity].
Qed.

End ResponseProcessor.

(** ** The classifier on concrete responses *)

Section ResponseProcessorExamples.
Import Proxy Samples.

(** C1, as stated, fails.  A streaming 429 whose signal is rate-limited
    with a reset time is a failover that enqueues nothing, so no mark; and
    a 429 that is not a stream but carries no status tag gets the mark and
    a usage increment, but no rate-limit meta update. *)
Lemma rate_limit_signal_alone_does_not_mark :
  (isRateLimited (parseRateLimit (provider streamingCtx) r429) = true
   /\ resetTime (parseRateLimit (provider streamingCtx) r429) = Some resetAt
   /\ processProxyResponse r429 acctA streamingCtx emptyWorld
      = (Normal true, emptyWorld))
  /\ (isRateLimited (parseRateLimit (provider untaggedCtx) r429) = true
      /\ resetTime (parseRateLimit (provider untaggedCtx) r429) = Some resetAt
      /\ processProxyResponse r429 acctA untaggedCtx emptyWorld
         = (Normal true,
            withWrites emptyWorld
              [MarkAccountRateLimited "acct-a" resetAt;
               UpdateAccountUsage "acct-a"] [])).
Proof.
  repeat split.
Qed.

Lemma rate_limited_response_marks_and_fails_over_witness :
  isStream taggedCtx r429 = false
  /\ isRateLimited (parseRateLimit (provider taggedCtx) r429) = true
  /\ exists w',
      processProxyResponse r429 acctA taggedCtx emptyWorld = (Normal true, w')
      /\ asyncQueue w'
         = asyncQueue emptyWorld
           ++ MarkAccountRateLimited (id acctA) resetAt
              :: UpdateAccountUsage (id acctA)
              :: rateLimitMetaOps acctA (parseRateLimit (provider taggedCtx) r429)
      /\ existsb isRateLimitMeta
           (rateLimitMetaOps acctA (parseRateLimit (provider taggedCtx) r429))
         = truthyString (statusHeader (parseRateLimit (provider taggedCtx) r429)).
Proof.
  split; [reflexivity|]. split; [reflexivity|].
  apply (rate_limited_response_marks_and_fails_over r429 acctA taggedCtx
           emptyWorld resetAt);
    [reflexivity | reflexivity | reflexivity | discriminate | reflexivity].
Defined.

Lemma non_success_fails_over_without_writes_witness :
  status r529 <> 200
  /\ processProxyResponse r529 acctA taggedCtx emptyWorld
     = (Normal true, emptyWorld).
Proof.
  split; [discriminate|].
  apply (non_success_fails_over_without_writes r529 acctA taggedCtx emptyWorld);
    [discriminate | intros [H _]; discriminate H].
Defined.

Lemma success_increments_usage_and_updates_meta_witness :
  status r200 = 200
  /\ exists w' added,
      processProxyResponse r200 acctA taggedCtx emptyWorld = (Normal false, w')
      /\ asyncQueue w' = asyncQueue emptyWorld ++ added
      /\ usageIncrements added = [id acctA]
      /\ existsb isRateLimitMark added = false
      /\ existsb isRateLimitMeta added
         = truthyString (statusHeader (parseRateLimit (provider taggedCtx) r200)).
Proof.
  split; [reflexivity|].
  apply (success_increments_usage_and_updates_meta r200 acctA taggedCtx
           emptyWorld); reflexivity.
Defined.

Lemma streaming_response_never_marks_witness :
  isStream streamingCtx r429 = true
  /\ isRateLimited (parseRateLimit (provider streamingCtx) r429) = true
  /\ processProxyResponse r429 acctA streamingCtx emptyWorld
     = (Normal true, emptyWorld).
Proof.
  split; [reflexivity|]. split; [reflexivity|].
  apply (streaming_response_never_marks r429 acctA streamingCtx emptyWorld);
    [reflexivity | discriminate].
Defined.

End ResponseProcessorExamples.

(* ------------------------------------------------------------------ *)
(** * Attempts with an account *)

Section ProxyOperations.
Import Proxy.

Lemma usageIncrements_app (l1 l2 : list DbOp) :
  usageIncrements (l1 ++ l2) = usageIncrements l1 ++ usageIncrements l2.
Proof.
  induction l1 as [|op l1 IH]; [reflexivity|].
  destruct op; simpl; now rewrite IH.
Qed.

Lemma usageIncrements_metadataOps ctx account response :
  usageIncrements (metadataOps ctx account response) = [id account].
Proof.
  unfold metadataOps; simpl. now rewrite rateLimitMetaOps_no_usage.
Qed.

(** The classifier has four ways out. *)
Lemma processProxyResponse_cases response account ctx w :
  (exists t,
      takesRateLimitBranch ctx response = true
      /\ resetTime (parseRateLimit (provider ctx) response) = Some t
      /\ validTimeValue t = true
      /\ processProxyResponse response account ctx w
         = (Normal true,
            withWrites w (MarkAccountRateLimited (id account) t
                          :: metadataOps ctx account response)
                         (tierOps ctx account response)))
  \/ (exists t,
      takesRateLimitBranch ctx response = true
      /\ resetTime (parseRateLimit (provider ctx) response) = Some t
      /\ validTimeValue t = false
      /\ processProxyResponse response account ctx w
         = (Abrupt invalidDate, w))
  \/ (takesRateLimitBranch ctx response = false
      /\ status response <> 200
      /\ processProxyResponse response account ctx w = (Normal true, w))
  \/ (takesRateLimitBranch ctx response = false
      /\ status response = 200
      /\ processProxyResponse response account ctx w
         = (Normal false,
            withWrites w (metadataOps ctx account response)
                         (tierOps ctx account response))).
Proof.
  destruct (takesRateLimitBranch ctx response) eqn:Hbranch.
  - assert (Htruthy : truthyNumber
              (resetTime (parseRateLimit (provider ctx) response)) = true).
    { unfold takesRateLimitBranch in Hbranch.
      now apply andb_true_iff in Hbranch as [_ H]. }
    apply truthyNumber_Some in Htruthy as [t [Hreset _]].
    destruct (validTimeValue t) eqn:Hvalid.
    + left. exists t. repeat split; try assumption.
      now apply processProxyResponse_rate_limit.
    + right; left. exists t. repeat split; try assumption.
      now apply processProxyResponse_rate_limit_throws with (t := t).
  - destruct (Z.eq_dec (status response) 200) as [H200|Hnot].
    + right; right; right. repeat split; try assumption.
      now apply processProxyResponse_success.
    + right; right; left. repeat split; try assumption.
      now apply processProxyResponse_non_success.
Qed.

Lemma clock_afterToken rt account w :
  clock (afterToken rt account w) = S (clock w).
Proof.
  unfold afterToken. now destruct (fst (getValidAccessToken rt (clock w) account)).
Qed.

Lemma usage_afterToken rt account w :
  usageIncrements (asyncQueue (afterToken rt account w))
  = usageIncrements (asyncQueue w).
Proof.
  unfold afterToken.
  destruct (fst (getValidAccessToken rt (clock w) account)); simpl;
    [|reflexivity].
  rewrite usageIncrements_app; simpl. now rewrite app_nil_r.
Qed.

(** ** The ways an attempt can go, one equation each *)

Section Attempt.
Variables (rt : Runtime) (req : Request) (url : URL) (account : Account)
  (requestMeta : RequestMeta) (requestBodyBuffer createBodyStream : option string)
  (failoverAttempts : nat) (ctx : ProxyContext) (w : World).

Local Abbreviation attempt :=
  (proxyWithAccount rt req url account requestMeta requestBodyBuffer
     createBodyStream failoverAttempts ctx w).
Local Abbreviation upstreamCall accessToken :=
  (accountRequest req url account createBodyStream ctx accessToken).

(** The token manager rejects: the attempt resolves to [null]. *)
Lemma proxyWithAccount_token_error e :
  snd (getValidAccessToken rt (clock w) account) = Rejected e ->
  attempt = (Fulfilled None, afterToken rt account w).
Proof.
  intros Htoken.
  unfold proxyWithAccount, runAsync, tryCatch, bind,
    callGetValidAccessToken.
  rewrite Htoken. reflexivity.
Qed.

(** The forwarder rejects: the attempt resolves to [null]. *)
Lemma proxyWithAccount_upstream_error accessToken e :
  snd (getValidAccessToken rt (clock w) account) = Fulfilled accessToken ->
  makeProxyRequest rt (S (clock w))
    (accountRequest req url account createBodyStream ctx accessToken)
  = Rejected e ->
  attempt
  = (Fulfilled None,
     afterUpstream (accountRequest req url account createBodyStream ctx accessToken)
                   (afterToken rt account w)).
Proof.
  intros Htoken Hupstream.
  unfold proxyWithAccount, runAsync, tryCatch, bind,
    callGetValidAccessToken, callMakeProxyRequest.
  rewrite Htoken. cbn [await ret].
  rewrite clock_afterToken.
  change (mkUpstreamRequest _ _ _ _ _)
    with (accountRequest req url account createBodyStream ctx accessToken).
  rewrite Hupstream. reflexivity.
Qed.

(** The upstream answered: the classifier decides, and on success the
    promise of [forwardToClient] becomes the promise of the attempt. *)
Lemma proxyWithAccount_response accessToken response :
  snd (getValidAccessToken rt (clock w) account) = Fulfilled accessToken ->
  makeProxyRequest rt (S (clock w))
    (accountRequest req url account createBodyStream ctx accessToken)
  = Fulfilled response ->
  attempt
  = match processProxyResponse response account ctx
            (afterUpstream
               (accountRequest req url account createBodyStream ctx accessToken)
               (afterToken rt account w)) with
    | (Normal false, w') =>
        let options := accountForward req url account requestMeta
                         requestBodyBuffer failoverAttempts response in
        (match forwardToClient rt (clock w') options with
         | Normal forwarded => mapSettled Some forwarded
         | Abrupt _ => Fulfilled None
         end, afterForward options w')
    | (_, w') => (Fulfilled None, w')
    end.
Proof.
  intros Htoken Hupstream.
  unfold proxyWithAccount, runAsync, tryCatch, bind,
    callGetValidAccessToken, callMakeProxyRequest.
  rewrite Htoken. cbn [await ret].
  rewrite clock_afterToken.
  change (mkUpstreamRequest _ _ _ _ _)
    with (accountRequest req url account createBodyStream ctx accessToken).
  rewrite Hupstream. cbn [await ret].
  destruct (processProxyResponse response account ctx _) as [[[|]|e] w'];
    try reflexivity.
  unfold callForwardToClient.
  change (mkForwardToClientOptions _ _ _ _ _ _ _ _ _ _ _)
    with (accountForward req url account requestMeta requestBodyBuffer
            failoverAttempts response).
  cbv zeta.
  destruct (forwardToClient rt (clock w') _) as [forwarded|e]; reflexivity.
Qed.

Lemma clock_processProxyResponse response w0 :
  clock (snd (processProxyResponse response account ctx w0)) = clock w0.
Proof.
  destruct (processProxyResponse_cases response account ctx w0)
    as [[t [_ [_ [_ H]]]] | [[t [_ [_ [_ H]]]] | [[_ [_ H]] | [_ [_ H]]]]];
    now rewrite H.
Qed.

Lemma processProxyResponse_usage response w0 w' (failover : bool) :
  processProxyResponse response account ctx w0 = (Normal failover, w') ->
  usageIncrements (asyncQueue w')
  = usageIncrements (asyncQueue w0)
    ++ (if reachesMetadata ctx response then [id account] else []).
Proof.
  unfold reachesMetadata, verdict.
  destruct (processProxyResponse_cases response account ctx w0)
    as [[t [Hb [Hr [Hv H]]]] | [[t [Hb [Hr [Hv H]]]] | [[Hb [Hs H]] | [Hb [Hs H]]]]];
    rewrite H; intros [= <- <-]; rewrite Hb.
  - rewrite Hr, Hv. cbn [withWrites asyncQueue].
    rewrite usageIncrements_app.
    change (MarkAccountRateLimited (id account) t
            :: metadataOps ctx account response)
      with ([MarkAccountRateLimited (id account) t]
            ++ metadataOps ctx account response).
    now rewrite usageIncrements_app, usageIncrements_metadataOps.
  - rewrite setHas_success. apply Z.eqb_neq in Hs. rewrite Hs. simpl.
    now rewrite app_nil_r.
  - rewrite setHas_success, Hs. cbn [withWrites asyncQueue negb Z.eqb Pos.eqb].
    now rewrite usageIncrements_app, usageIncrements_metadataOps.
Qed.

Lemma processProxyResponse_abrupt response w0 w' e :
  processProxyResponse response account ctx w0 = (Abrupt e, w') ->
  w' = w0 /\ reachesMetadata ctx response = false.
Proof.
  unfold reachesMetadata, verdict.
  destruct (processProxyResponse_cases response account ctx w0)
    as [[t [Hb [Hr [Hv H]]]] | [[t [Hb [Hr [Hv H]]]] | [[Hb [Hs H]] | [Hb [Hs H]]]]];
    rewrite H; intros [= <- <-].
  rewrite Hb, Hr, Hv. now split.
Qed.

(** Every attempt, however it ends, enqueues the usage increments that
    [attemptUsage] reads off the collaborators' answers. *)
Lemma proxyWithAccount_usage :
  usageIncrements (asyncQueue (snd attempt))
  = usageIncrements (asyncQueue w)
    ++ attemptUsage rt req url account createBodyStream ctx w.
Proof.
  unfold attemptUsage, attemptResponse.
  destruct (snd (getValidAccessToken rt (clock w) account))
    as [accessToken|e] eqn:Htoken.
  - destruct (makeProxyRequest rt (S (clock w)) (upstreamCall accessToken))
      as [response|e] eqn:Hupstream.
    + rewrite (proxyWithAccount_response _ _ Htoken Hupstream).
      destruct (processProxyResponse response account ctx _)
        as [[failover|e] w'] eqn:Hprocess.
      * apply processProxyResponse_usage in Hprocess. simpl in Hprocess.
        rewrite usage_afterToken in Hprocess.
        destruct failover; simpl; exact Hprocess.
      * apply processProxyResponse_abrupt in Hprocess as [-> ->]. simpl.
        now rewrite usage_afterToken, app_nil_r.
    + rewrite (proxyWithAccount_upstream_error _ _ Htoken Hupstream). simpl.
      now rewrite usage_afterToken, app_nil_r.
  - rewrite (proxyWithAccount_token_error _ Htoken). simpl.
    now rewrite usage_afterToken, app_nil_r.
Qed.

(** An attempt that resolves to a response went through the success
    branch of the classifier. *)
Lemma proxyWithAccount_success_verdict resp :
  fst attempt = Fulfilled (Some resp) ->
  exists response,
    attemptResponse rt req url account createBodyStream ctx w = Some response
    /\ verdict ctx response = Success.
Proof.
  unfold attemptResponse.
  destruct (snd (getValidAccessToken rt (clock w) account))
    as [accessToken|e] eqn:Htoken.
  - destruct (makeProxyRequest rt (S (clock w)) (upstreamCall accessToken))
      as [response|e] eqn:Hupstream.
    + rewrite (proxyWithAccount_response _ _ Htoken Hupstream).
      intros Hres. exists response. split; [reflexivity|].
      unfold verdict.
      destruct (processProxyResponse_cases response account ctx
                  (afterUpstream (upstreamCall accessToken)
                                 (afterToken rt account w)))
        as [[t [Hb [Hr [Hv H]]]] | [[t [Hb [Hr [Hv H]]]] | [[Hb [Hs H]] | [Hb [Hs H]]]]];
        rewrite H in Hres; try discriminate Hres.
      now rewrite Hb, setHas_success, Hs.
    + rewrite (proxyWithAccount_upstream_error _ _ Htoken Hupstream).
      discriminate.
  - rewrite (proxyWithAccount_token_error _ Htoken). discriminate.
Qed.

Lemma proxyWithAccount_success_usage resp :
  fst attempt = Fulfilled (Some resp) ->
  attemptUsage rt req url account createBodyStream ctx w = [id account].
Proof.
  intros Hres.
  destruct (proxyWithAccount_success_verdict _ Hres) as [response [Hresp Hv]].
  unfold attemptUsage, reachesMetadata. now rewrite Hresp, Hv.
Qed.

(** The attempt rejects in one case only: the classifier accepted the
    response and the promise that [forwardToClient] returned rejects. *)
Lemma proxyWithAccount_rejects_iff e :
  fst attempt = Rejected e
  <-> exists accessToken response,
        snd (getValidAccessToken rt (clock w) account) = Fulfilled accessToken
        /\ makeProxyRequest rt (S (clock w)) (upstreamCall accessToken)
           = Fulfilled response
        /\ verdict ctx response = Success
        /\ forwardToClient rt (S (S (clock w)))
             (accountForward req url account requestMeta requestBodyBuffer
                failoverAttempts response)
           = Normal (Rejected e).
Proof.
  split.
  - destruct (snd (getValidAccessToken rt (clock w) account))
      as [accessToken|e0] eqn:Htoken;
      [|rewrite (proxyWithAccount_token_error _ Htoken); discriminate].
    destruct (makeProxyRequest rt (S (clock w)) (upstreamCall accessToken))
      as [response|e0] eqn:Hupstream;
      [|rewrite (proxyWithAccount_upstream_error _ _ Htoken Hupstream);
        discriminate].
    rewrite (proxyWithAccount_response _ _ Htoken Hupstream).
    pose proof (clock_processProxyResponse response
                  (afterUpstream (upstreamCall accessToken)
                                 (afterToken rt account w))) as Hclock.
    destruct (processProxyResponse_cases response account ctx
                (afterUpstream (upstreamCall accessToken)
                               (afterToken rt account w)))
      as [[t [Hb [Hr [Hv H]]]] | [[t [Hb [Hr [Hv H]]]] | [[Hb [Hs H]] | [Hb [Hs H]]]]];
      rewrite H in *; try discriminate.
    cbn [snd] in Hclock. rewrite Hclock. cbn [afterUpstream clock].
    rewrite clock_afterToken. cbn [fst].
    intros Hres. exists accessToken, response.
    split; [reflexivity|]. split; [assumption|]. split.
    + unfold verdict. now rewrite Hb, setHas_success, Hs.
    + destruct (forwardToClient rt _ _) as [[forwarded|e1]|e1];
        try discriminate Hres.
      now injection Hres as ->.
  - intros [accessToken [response [Htoken [Hupstream [Hverdict Hforward]]]]].
    rewrite (proxyWithAccount_response _ _ Htoken Hupstream).
    pose proof (clock_processProxyResponse response
                  (afterUpstream (upstreamCall accessToken)
                                 (afterToken rt account w))) as Hclock.
    unfold verdict in Hverdict.
    destruct (processProxyResponse_cases response account ctx
                (afterUpstream (upstreamCall accessToken)
                               (afterToken rt account w)))
      as [[t [Hb [Hr [Hv H]]]] | [[t [Hb [Hr [Hv H]]]] | [[Hb [Hs H]] | [Hb [Hs H]]]]];
      rewrite Hb in Hverdict; try discriminate Hverdict.
    + rewrite setHas_success in Hverdict. apply Z.eqb_neq in Hs.
      rewrite Hs in Hverdict. discriminate Hverdict.
    + rewrite H in *. cbn [snd] in Hclock. rewrite Hclock.
      cbn [afterUpstream clock]. rewrite clock_afterToken, Hforward.
      reflexivity.
Qed.

(** Errors of the token manager, of the forwarder and of the classifier
    are absorbed: the attempt resolves to [null]. *)
Lemma proxyWithAccount_absorbs_stage_errors :
  (forall e,
      snd (getValidAccessToken rt (clock w) account) = Rejected e ->
      fst attempt = Fulfilled None)
  /\ (forall accessToken e,
        snd (getValidAccessToken rt (clock w) account) = Fulfilled accessToken ->
        makeProxyRequest rt (S (clock w)) (upstreamCall accessToken) = Rejected e ->
        fst attempt = Fulfilled None)
  /\ (forall accessToken response e,
        snd (getValidAccessToken rt (clock w) account) = Fulfilled accessToken ->
        makeProxyRequest rt (S (clock w)) (upstreamCall accessToken)
        = Fulfilled response ->
        fst (processProxyResponse response account ctx
               (afterUpstream (upstreamCall accessToken)
                              (afterToken rt account w)))
        = Abrupt e ->
        fst attempt = Fulfilled None).
Proof.
  repeat split.
  - intros e Htoken. now rewrite (proxyWithAccount_token_error _ Htoken).
  - intros accessToken e Htoken Hupstream.
    now rewrite (proxyWithAccount_upstream_error _ _ Htoken Hupstream).
  - intros accessToken response e Htoken Hupstream Hprocess.
    rewrite (proxyWithAccount_response _ _ Htoken Hupstream).
    destruct (processProxyResponse response account ctx _) as [[failover|e0] w'];
      [discriminate Hprocess | reflexivity].
Qed.

End Attempt.

(** ** A request that fails over and then succeeds *)

Lemma failoverChain_usage rt req url requestMeta requestBodyBuffer
    createBodyStream ctx failed :
  forall failoverAttempts w starts w1,
    failoverChain rt req url requestMeta requestBodyBuffer createBodyStream ctx
      failed failoverAttempts w = Some (starts, w1) ->
    List.length starts = List.length failed
    /\ usageIncrements (asyncQueue w1)
       = usageIncrements (asyncQueue w)
         ++ chainUsage rt req url createBodyStream ctx failed starts.
Proof.
  induction failed as [|account rest IH]; intros i w starts w1; simpl.
  - intros [= <- <-]. split; [reflexivity | now rewrite app_nil_r].
  - pose proof (proxyWithAccount_usage rt req url account requestMeta
                  requestBodyBuffer createBodyStream i ctx w) as Hstep.
    destruct (proxyWithAccount rt req url account requestMeta requestBodyBuffer
                createBodyStream i ctx w) as [[[resp|]|e] wa];
      try discriminate.
    destruct (failoverChain rt req url requestMeta requestBodyBuffer
                createBodyStream ctx rest (S i) wa) as [[starts' w2]|] eqn:Hrest;
      try discriminate.
    intros [= <- <-].
    destruct (IH _ _ _ _ Hrest) as [Hlen Husage].
    split; [simpl; now rewrite Hlen|].
    simpl in Hstep. rewrite Husage, Hstep. simpl.
    now rewrite !app_assoc.
Qed.

(** What [attemptUsage] is, verdict by verdict. *)
Lemma attemptUsage_by_verdict rt req url account createBodyStream ctx w :
  attemptUsage rt req url account createBodyStream ctx w
  = match attemptResponse rt req url account createBodyStream ctx w with
    | None => []
    | Some response =>
        match verdict ctx response with
        | NonSuccessFailover => []
        | Success => [id account]
        | RateLimitFailover =>
            match resetTime (parseRateLimit (provider ctx) response) with
            | Some t => if validTimeValue t then [id account] else []
            | None => []
            end
        end
    end.
Proof.
  unfold attemptUsage, reachesMetadata.
  destruct (attemptResponse rt req url account createBodyStream ctx w)
    as [response|]; [|reflexivity].
  destruct (verdict ctx response); try reflexivity.
  now destruct (resetTime (parseRateLimit (provider ctx) response)).
Qed.

(** C2, as amended.  For every request that fails over on the accounts of
    [failed], one after the other, and then succeeds with [winner]: the
    usage increments enqueued during the request are, in order, those of
    the failed attempts as [attemptUsage] gives them, followed by exactly
    one for [winner].  An attempt that failed over contributes no
    increment when it ended on a plain non-success status or on an
    absorbed error before the metadata update, and one increment for its
    own account when its response reached the metadata update, as every
    rate-limited failover within the range of a [Date] does. *)
Theorem failover_run_usage_increments rt req url requestMeta
    requestBodyBuffer createBodyStream ctx failed winner w starts w1 resp w2 :
  failoverChain rt req url requestMeta requestBodyBuffer createBodyStream ctx
    failed 0 w = Some (starts, w1) ->
  proxyWithAccount rt req url winner requestMeta requestBodyBuffer
    createBodyStream (List.length failed) ctx w1 = (Fulfilled (Some resp), w2) ->
  usageIncrements (asyncQueue w2)
  = usageIncrements (asyncQueue w)
    ++ chainUsage rt req url createBodyStream ctx failed starts
    ++ [id winner]
  /\ forall account w0,
      attemptUsage rt req url account createBodyStream ctx w0
      = match attemptResponse rt req url account createBodyStream ctx w0 with
        | None => []
        | Some response =>
            match verdict ctx response with
            | NonSuccessFailover => []
            | Success => [id account]
            | RateLimitFailover =>
                match resetTime (parseRateLimit (provider ctx) response) with
                | Some t => if validTimeValue t then [id account] else []
                | None => []
                end
            end
        end.
Proof.
  intros Hchain Hwin.
  split; [|intros; apply attemptUsage_by_verdict].
  destruct (failoverChain_usage _ _ _ _ _ _ _ _ _ _ _ _ Hchain) as [_ Hfailed].
  pose proof (proxyWithAccount_usage rt req url winner requestMeta
                requestBodyBuffer createBodyStream (List.length failed) ctx w1)
    as Hstep.
  rewrite (proxyWithAccount_success_usage rt req url winner requestMeta
             requestBodyBuffer createBodyStream (List.length failed) ctx w1 resp)
    in Hstep by now rewrite Hwin.
  rewrite Hwin in Hstep. simpl in Hstep.
  now rewrite Hstep, Hfailed, app_assoc.
Qed.

End ProxyOperations.

(* ------------------------------------------------------------------ *)
(** * The unauthenticated pass-through *)

Section Unauthenticated.
Import Proxy.

(** C6.  [proxyUnauthenticated], the operation that serves a request when
    no account is eligible, makes one upstream call whose headers are
    those of [prepareHeaders] applied to the incoming headers with neither
    an access token nor an API key, and writes nothing to the async
    writer.  When the upstream answers, the options handed to
    [forwardToClient], from which the usage record is built, carry no
    account.  When the upstream call fails, the result is a rejection
    with a [ProviderError] of status 502 and nothing is forwarded. *)
Theorem proxyUnauthenticated_forwards_without_credentials
    rt req url requestMeta requestBodyBuffer createBodyStream ctx w :
  upstreamHeaders (unauthenticatedRequest req url createBodyStream ctx)
  = prepareHeaders (provider ctx) (headers req) None None
  /\ upstreamCalls (snd (proxyUnauthenticated rt req url requestMeta
                           requestBodyBuffer createBodyStream ctx w))
     = upstreamCalls w ++ [unauthenticatedRequest req url createBodyStream ctx]
  /\ asyncQueue (snd (proxyUnauthenticated rt req url requestMeta
                        requestBodyBuffer createBodyStream ctx w))
     = asyncQueue w
  /\ (forall response,
        makeProxyRequest rt (clock w)
          (unauthenticatedRequest req url createBodyStream ctx)
        = Fulfilled response ->
        clientForwards (snd (proxyUnauthenticated rt req url requestMeta
                               requestBodyBuffer createBodyStream ctx w))
        = clientForwards w
          ++ [unauthenticatedForward req url requestMeta requestBodyBuffer
                response]
        /\ account (unauthenticatedForward req url requestMeta
                      requestBodyBuffer response) = None
        /\ fst (proxyUnauthenticated rt req url requestMeta requestBodyBuffer
                  createBodyStream ctx w)
           = match forwardToClient rt (S (clock w))
                     (unauthenticatedForward req url requestMeta
                        requestBodyBuffer response) with
             | Normal forwarded => forwarded
             | Abrupt e => Rejected (unauthenticatedFailure rt ctx e)
             end)
  /\ (forall e,
        makeProxyRequest rt (clock w)
          (unauthenticatedRequest req url createBodyStream ctx)
        = Rejected e ->
        fst (proxyUnauthenticated rt req url requestMeta requestBodyBuffer
               createBodyStream ctx w)
        = Rejected (ProviderError (UNAUTHENTICATED_FAILED (ERROR_MESSAGES rt))
                      (providerName (provider ctx)) 502 (errorMessage e))
        /\ clientForwards (snd (proxyUnauthenticated rt req url requestMeta
                                  requestBodyBuffer createBodyStream ctx w))
           = clientForwards w).
Proof.
  split; [reflexivity|].
  unfold proxyUnauthenticated, runAsync, tryCatch, bind, callMakeProxyRequest.
  change (mkUpstreamRequest _ _ _ _ _)
    with (unauthenticatedRequest req url createBodyStream ctx).
  destruct (makeProxyRequest rt (clock w)
              (unauthenticatedRequest req url createBodyStream ctx))
    as [response|e] eqn:Hupstream; cbn [await ret throw].
  - unfold callForwardToClient.
    change (mkForwardToClientOptions _ _ _ _ _ _ _ _ _ _ _)
      with (unauthenticatedForward req url requestMeta requestBodyBuffer
              response).
    cbn [afterUpstream clock].
    destruct (forwardToClient rt (S (clock w)) _) as [forwarded|e] eqn:Hforward;
      cbn [fst snd async afterForward afterUpstream upstreamCalls asyncQueue
           clientForwards].
    + split; [reflexivity|]. split; [reflexivity|]. split.
      * intros response' [= <-]. now rewrite Hforward.
      * intros e; discriminate.
    + split; [reflexivity|]. split; [reflexivity|]. split.
      * intros response' [= <-]. now rewrite Hforward.
      * intros e'; discriminate.
  - cbn [fst snd async afterUpstream upstreamCalls asyncQueue clientForwards].
    split; [reflexivity|]. split; [reflexivity|]. split.
    + intros response; discriminate.
    + intros e' [= <-]. now split.
Qed.

End Unauthenticated.

(** ** Attempts on concrete accounts *)

Section ProxyOperationsExamples.
Import Proxy Samples.

(** C2, as stated, fails.  The first account answers a rate-limited 429,
    the second a 200: the request fails over once and then succeeds, and
    two usage increments are enqueued, the first of them for the account
    that failed over. *)
Lemma rate_limited_failover_increments_usage :
  failoverChain rtFailover postMessages messagesUrl meta1 buffered buffered
    taggedCtx [acctA] 0 emptyWorld = Some ([emptyWorld], afterA)
  /\ proxyWithAccount rtFailover postMessages messagesUrl acctB meta1 buffered
       buffered 1 taggedCtx afterA = (Fulfilled (Some r200), afterB)
  /\ verdict taggedCtx r429 = RateLimitFailover
  /\ usageIncrements (asyncQueue afterB) = ["acct-a"; "acct-b"]%string.
Proof.
  repeat split.
Qed.

Lemma failover_run_usage_increments_witness :
  failoverChain rtFailover postMessages messagesUrl meta1 buffered buffered
    taggedCtx [acctA] 0 emptyWorld = Some ([emptyWorld], afterA)
  /\ proxyWithAccount rtFailover postMessages messagesUrl acctB meta1 buffered
       buffered 1 taggedCtx afterA = (Fulfilled (Some r200), afterB)
  /\ usageIncrements (asyncQueue afterB)
     = usageIncrements (asyncQueue emptyWorld)
       ++ chainUsage rtFailover postMessages messagesUrl buffered taggedCtx
            [acctA] [emptyWorld]
       ++ [id acctB].
Proof.
  split; [reflexivity|]. split; [reflexivity|].
  apply (failover_run_usage_increments rtFailover postMessages messagesUrl
           meta1 buffered buffered taggedCtx [acctA] acctB emptyWorld
           [emptyWorld] afterA r200 afterB); reflexivity.
Defined.

(** C5 at a failing input.  The token is valid and the upstream answers a
    200 that is not rate-limited, so the attempt returns the promise of
    [forwardToClient] from inside its [try] without awaiting it; that
    promise rejects, and so does the attempt: the error reaches the
    caller instead of [null]. *)
Theorem proxyWithAccount_unawaited_rejection_escapes :
  proxyWithAccount rtForwardRejects postMessages messagesUrl acctB meta1
    buffered buffered 0 taggedCtx emptyWorld
  = (Rejected (Error "usage worker is gone"),
     afterForward
       (accountForward postMessages messagesUrl acctB meta1 buffered 0%nat r200)
       (withWrites
          (afterUpstream
             (accountRequest postMessages messagesUrl acctB buffered taggedCtx
                "token-acct-b")
             (afterToken rtForwardRejects acctB emptyWorld))
          [UpdateAccountUsage "acct-b"] [])).
Proof.
  reflexivity.
Qed.

(** The same upstream failure, without an account: a [ProviderError] with
    status 502. *)
Example proxyUnauthenticated_unreachable :
  fst (proxyUnauthenticated rtUnreachable postMessages messagesUrl meta1
         buffered buffered taggedCtx emptyWorld)
  = Rejected (ProviderError "Failed to proxy request without authentication"
                "anthropic" 502 "connect ECONNREFUSED").
Proof.
  reflexivity.
Qed.

End ProxyOperationsExamples.

(* ------------------------------------------------------------------ *)
(** * The OAuth flow *)

Section OAuth.
Import OAuthFlow.

Lemma existsb_name_In (n : string) (rows : list AccountRow) :
  existsb (fun a => (row_name a =? n)%string) rows = true
  <-> In n (map row_name rows).
Proof.
  rewrite existsb_exists, in_map_iff. split.
  - intros [a [Hin Heq]]. apply String.eqb_eq in Heq. now exists a.
  - intros [a [Heq Hin]]. exists a. split; [assumption|].
    now apply String.eqb_eq.
Qed.

(** [begin] reads the accounts and never writes them. *)
Lemma begin_preserves_accounts pf opts st :
  accounts (snd (begin pf opts st)) = accounts st.
Proof.
  unfold begin, runAsync, bind, getAllAccounts, nextCall.
  destruct (existsb _ (accounts st)); [reflexivity|].
  destruct (getOAuthProvider pf "anthropic") as [p|]; [|reflexivity].
  destruct (generatePKCE pf (calls st)); reflexivity.
Qed.

(** C8.  [begin] called with the name of a stored account rejects with
    the error that the name already exists and leaves the store as it
    was; whenever [begin] fulfils, the name is not among the stored
    names; and no call to [begin] changes the accounts table. *)
Theorem begin_rejects_existing_name pf opts st :
  (In (beginName opts) (map row_name (accounts st)) ->
   begin pf opts st
   = (Rejected (Error ("Account with name '" ++ beginName opts
                       ++ "' already exists")), st))
  /\ (forall result,
        fst (begin pf opts st) = Fulfilled result ->
        ~ In (beginName opts) (map row_name (accounts st)))
  /\ accounts (snd (begin pf opts st)) = accounts st.
Proof.
  split; [|split; [|apply begin_preserves_accounts]].
  - intros Hin. apply existsb_name_In in Hin.
    unfold begin, runAsync, bind, getAllAccounts. now rewrite Hin.
  - intros result Hres Hin. apply existsb_name_In in Hin.
    unfold begin, runAsync, bind, getAllAccounts in Hres.
    rewrite Hin in Hres. discriminate Hres.
Qed.

(** ** [complete], path by path *)

Section Complete.
Variables (pf : Platform) (opts : CompleteOptions) (flowData : BeginResult)
  (st : Store).

Local Abbreviation exchanged p :=
  (exchangeCode p (code opts) (verifier (pkce flowData)) (oauthConfig flowData)).
Local Abbreviation issued := (mkStore (accounts st) (S (calls st))).
Local Abbreviation theTier := (match tier opts with Some t => t | None => 1 end).

Lemma complete_no_provider :
  getOAuthProvider pf "anthropic" = None ->
  complete pf opts flowData st
  = (Rejected (Error "Anthropic OAuth provider not found"), st).
Proof.
  intros Hp. unfold complete, runAsync. now rewrite Hp.
Qed.

Lemma complete_exchange_fails p e :
  getOAuthProvider pf "anthropic" = Some p ->
  exchanged p = Rejected e ->
  complete pf opts flowData st = (Rejected e, st).
Proof.
  intros Hp Hx. unfold complete, runAsync, bind. now rewrite Hp, Hx.
Qed.

(** The console path with a custom base URL: an error, after the account
    id has been drawn and before anything is written. *)
Lemma complete_console_custom_base_url p tokens :
  getOAuthProvider pf "anthropic" = Some p ->
  exchanged p = Fulfilled tokens ->
  isConsole (mode flowData) || negb (truthyString (refreshToken tokens)) = true ->
  truthyString (baseUrl flowData) = true ->
  complete pf opts flowData st
  = (Rejected (Error "Console mode with custom base URL should use direct API key input, not OAuth flow"),
     issued).
Proof.
  intros Hp Hx Hconsole Hbase.
  unfold complete, runAsync, bind, nextCall. rewrite Hp, Hx. cbn [await ret].
  now rewrite Hconsole, Hbase.
Qed.

(** The OAuth path: one row, with the tokens of the exchange. *)
Lemma complete_oauth p tokens :
  getOAuthProvider pf "anthropic" = Some p ->
  exchanged p = Fulfilled tokens ->
  isConsole (mode flowData) || negb (truthyString (refreshToken tokens)) = false ->
  complete pf opts flowData st
  = (Fulfilled (mkAccountCreated (randomUUID pf (calls st)) (completeName opts)
                  theTier "anthropic" oauth),
     mkStore
       (accounts st
        ++ [mkAccountRow (randomUUID pf (calls st)) (completeName opts)
              "anthropic" None (Some (orEmpty (refreshToken tokens)))
              (Some (accessToken tokens)) (Some (expiresAt tokens))
              (dateNow pf (S (calls st))) 0 0 theTier
              (orUndefined (baseUrl flowData))])
       (S (S (calls st)))).
Proof.
  intros Hp Hx Hconsole.
  unfold complete, runAsync, bind, nextCall. rewrite Hp, Hx. cbn [await ret].
  rewrite Hconsole. reflexivity.
Qed.

(** The console path without a custom base URL: the key is created, and
    only then is a row written. *)
Lemma complete_console p tokens :
  getOAuthProvider pf "anthropic" = Some p ->
  exchanged p = Fulfilled tokens ->
  isConsole (mode flowData) || negb (truthyString (refreshToken tokens)) = true ->
  truthyString (baseUrl flowData) = false ->
  complete pf opts flowData st
  = match createAnthropicApiKey pf (accessToken tokens) (baseUrl flowData)
            issued with
    | (Fulfilled apiKey, st1) =>
        (Fulfilled (mkAccountCreated (randomUUID pf (calls st))
                      (completeName opts) theTier "anthropic" api_key),
         mkStore
           (accounts st1
            ++ [mkAccountRow (randomUUID pf (calls st)) (completeName opts)
                  "anthropic" apiKey None None None
                  (dateNow pf (calls st1)) 0 0 theTier
                  (orUndefined (baseUrl flowData))])
           (S (calls st1)))
    | (Rejected e, st1) => (Rejected e, st1)
    end.
Proof.
  intros Hp Hx Hconsole Hbase.
  unfold complete, runAsync, bind, nextCall, awaitCall.
  rewrite Hp, Hx. cbn [await ret]. rewrite Hconsole, Hbase.
  destruct (createAnthropicApiKey pf (accessToken tokens) (baseUrl flowData) _)
    as [[apiKey|e] st1]; reflexivity.
Qed.

Lemma createAnthropicApiKey_preserves_accounts token base st0 :
  accounts (snd (createAnthropicApiKey pf token base st0)) = accounts st0.
Proof.
  unfold createAnthropicApiKey, runAsync, bind, nextCall.
  destruct (truthyString base && _); [reflexivity|].
  destruct (fetchCreateApiKey pf (calls st0) token) as [response|e];
    [|reflexivity].
  cbn [await ret]. destruct (ok response); [|reflexivity].
  cbn [negb]. destruct (json_raw_key response); reflexivity.
Qed.

(** The row of a fulfilled [complete], by auth type: an [oauth] account
    satisfies the auth-type invariant; an [api_key] account has no tokens
    and no expiry, and satisfies the invariant exactly when the console
    endpoint returned a key.  Both start with their counters at 0. *)
Lemma complete_row_by_auth_type created st' :
  complete pf opts flowData st = (Fulfilled created, st') ->
  exists row,
    accounts st' = accounts st ++ [row]
    /\ row_id row = createdId created
    /\ row_name row = createdName created
    /\ row_request_count row = 0
    /\ row_total_requests row = 0
    /\ (authType created = oauth -> authTypeInvariant oauth row = true)
    /\ (authType created = api_key ->
        row_access_token row = None
        /\ row_refresh_token row = None
        /\ row_expires_at row = None
        /\ (authTypeInvariant api_key row = true <-> row_api_key row <> None)).
Proof.
  destruct (getOAuthProvider pf "anthropic") as [p|] eqn:Hp;
    [|rewrite (complete_no_provider Hp); discriminate].
  destruct (exchanged p) as [tokens|e] eqn:Hx;
    [|rewrite (complete_exchange_fails _ _ Hp Hx); discriminate].
  destruct (isConsole (mode flowData)
            || negb (truthyString (refreshToken tokens))) eqn:Hconsole.
  - destruct (truthyString (baseUrl flowData)) eqn:Hbase;
      [rewrite (complete_console_custom_base_url _ _ Hp Hx Hconsole Hbase);
       discriminate|].
    rewrite (complete_console _ _ Hp Hx Hconsole Hbase).
    pose proof (createAnthropicApiKey_preserves_accounts
                  (accessToken tokens) (baseUrl flowData) issued) as Hkeep.
    destruct (createAnthropicApiKey pf (accessToken tokens) (baseUrl flowData) _)
      as [[apiKey|e] st1]; [|discriminate].
    cbn [snd accounts] in Hkeep.
    intros [= <- <-]. eexists. cbn [accounts]. rewrite Hkeep.
    split; [reflexivity|]. split; [reflexivity|]. split; [reflexivity|].
    split; [reflexivity|]. split; [reflexivity|].
    split; [discriminate|]. intros _.
    split; [reflexivity|]. split; [reflexivity|]. split; [reflexivity|].
    cbn. destruct apiKey as [key|]; cbn; split; congruence.
  - rewrite (complete_oauth _ _ Hp Hx Hconsole).
    intros [= <- <-]. eexists. cbn [accounts].
    split; [reflexivity|]. split; [reflexivity|]. split; [reflexivity|].
    split; [reflexivity|]. split; [reflexivity|].
    split; [reflexivity|]. discriminate.
Qed.

(** C10.  A call to [complete] that takes the console path, because the
    flow is in console mode or because the exchange returned no refresh
    token, while the flow carries a custom base URL, rejects and leaves
    the accounts table as it was; when the exchange has succeeded, the
    rejection is the console-mode error of [complete] itself. *)
Theorem complete_console_with_base_url_rejects :
  truthyString (baseUrl flowData) = true ->
  (mode flowData = console
   \/ exists p tokens,
        getOAuthProvider pf "anthropic" = Some p
        /\ exchanged p = Fulfilled tokens
        /\ truthyString (refreshToken tokens) = false) ->
  (exists e, fst (complete pf opts flowData st) = Rejected e)
  /\ accounts (snd (complete pf opts flowData st)) = accounts st
  /\ (forall p tokens,
        getOAuthProvider pf "anthropic" = Some p ->
        exchanged p = Fulfilled tokens ->
        fst (complete pf opts flowData st)
        = Rejected (Error "Console mode with custom base URL should use direct API key input, not OAuth flow")).
Proof.
  intros Hbase Hpath.
  assert (Hconsole : forall p tokens,
             getOAuthProvider pf "anthropic" = Some p ->
             exchanged p = Fulfilled tokens ->
             isConsole (mode flowData)
             || negb (truthyString (refreshToken tokens)) = true).
  { intros p tokens Hp Hx. destruct Hpath as [Hmode | [p' [tokens' [Hp' [Hx' Hno]]]]].
    - now rewrite Hmode.
    - rewrite Hp in Hp'. injection Hp' as <-.
      rewrite Hx in Hx'. injection Hx' as <-.
      rewrite Hno. now rewrite orb_true_r. }
  destruct (getOAuthProvider pf "anthropic") as [p|] eqn:Hp.
  - destruct (exchanged p) as [tokens|e] eqn:Hx.
    + rewrite (complete_console_custom_base_url _ _ Hp Hx
                 (Hconsole _ _ eq_refl Hx) Hbase).
      split; [eexists; reflexivity|]. split; [reflexivity|].
      intros p' tokens' [= <-] _. reflexivity.
    + rewrite (complete_exchange_fails _ _ Hp Hx).
      split; [eexists; reflexivity|]. split; [reflexivity|].
      intros p' tokens' [= <-] Hx'. rewrite Hx in Hx'. discriminate Hx'.
  - rewrite (complete_no_provider Hp).
    split; [eexists; reflexivity|]. split; [reflexivity|].
    intros p' tokens' Hp'. discriminate Hp'.
Qed.

End Complete.
End OAuth.

(** ** The flow on concrete stores *)

Section OAuthExamples.
Import OAuthFlow OAuthSamples.

(** A max-mode flow stores an OAuth account ... *)
Example complete_max_example :
  complete (platform (Fulfilled maxTokens)) completeWork (flowOf max None)
    emptyStore
  = (Fulfilled (mkAccountCreated "uuid-0" "work" 5 "anthropic" oauth),
     mkStore
       [mkAccountRow "uuid-0" "work" "anthropic" None (Some "rt-1")
          (Some "at-1") (Some 1700003600000) 1700000000000 0 0 5 None] 2).
Proof.
  reflexivity.
Qed.

(** ... and a console-mode flow an API-key account. *)
Example complete_console_example :
  complete (platform (Fulfilled maxTokens)) completeWork (flowOf console None)
    emptyStore
  = (Fulfilled (mkAccountCreated "uuid-0" "work" 5 "anthropic" api_key),
     mkStore
       [mkAccountRow "uuid-0" "work" "anthropic" (Some "sk-ant-1") None None
          None 1700000000000 0 0 5 None] 3).
Proof.
  reflexivity.
Qed.

Example begin_existing_name_example :
  begin (platform (Fulfilled maxTokens)) (mkBeginOptions "work" max None)
    storeWithWork
  = (Rejected (Error "Account with name 'work' already exists"),
     storeWithWork).
Proof.
  reflexivity.
Qed.

(** C7 at a failing input.  The flow is in console mode without base
    URL, the exchange succeeds, and the console endpoint answers 200 with a
    body that has no [raw_key].  [createAnthropicApiKey] returns the
    missing member as its key, and [complete] fulfils with an [api_key]
    account whose row has a null API key as well as null tokens: the
    auth-type invariant does not hold of it. *)
Theorem complete_stores_null_key_for_keyless_body :
  complete OAuthMoreSamples.keylessPlatform completeWork (flowOf console None)
    emptyStore
  = (Fulfilled (mkAccountCreated "uuid-0" "work" 5 "anthropic" api_key),
     mkStore [OAuthMoreSamples.keylessRow] 3)
  /\ row_api_key OAuthMoreSamples.keylessRow = None
  /\ authTypeInvariant api_key OAuthMoreSamples.keylessRow = false.
Proof.
  repeat split.
Qed.

Lemma complete_console_with_base_url_rejects_witness :
  truthyString (baseUrl (flowOf console (Some "https://llm.example.org"))) = true
  /\ (exists e,
        fst (complete (platform (Fulfilled maxTokens)) completeWork
               (flowOf console (Some "https://llm.example.org")) storeWithWork)
        = Rejected e)
  /\ accounts
       (snd (complete (platform (Fulfilled maxTokens)) completeWork
               (flowOf console (Some "https://llm.example.org")) storeWithWork))
     = accounts storeWithWork.
Proof.
  split; [reflexivity|].
  pose proof (complete_console_with_base_url_rejects
                (platform (Fulfilled maxTokens)) completeWork
                (flowOf console (Some "https://llm.example.org")) storeWithWork
                eq_refl (or_introl eq_refl)) as [Hrejects [Hsame _]].
  exact (conj Hrejects Hsame).
Defined.

End OAuthExamples.

(* ------------------------------------------------------------------ *)
(** * More on the response classifier *)

Section ClassifierContract.
Import Proxy QueueReading.

Lemma Forall_opAccount_metadataOps ctx account response :
  Forall (fun op => opAccount op = id account)
         (metadataOps ctx account response).
Proof.
  unfold metadataOps, rateLimitMetaOps. constructor; [reflexivity|].
  destruct (statusHeader (parseRateLimit (provider ctx) response)) as [tag|];
    [|constructor].
  destruct (tag =? "")%string; repeat constructor.
Qed.

Lemma Forall_opAccount_tierOps ctx account response :
  Forall (fun op => opAccount op = id account) (tierOps ctx account response).
Proof.
  unfold tierOps.
  destruct (extractTierInfo (provider ctx)) as [extract|]; [|constructor].
  destruct (extract response) as [tier|]; [|constructor].
  destruct (negb (tier =? 0) && negb (tier =? account_tier account));
    repeat constructor.
Qed.

(** X1.  Whatever the response, the classifier only appends: the worlds
    before and after differ by operations added at the end of the async
    queue and of the detached work, every one of them addressed to the
    attempted account; the upstream calls, the forwards and the clock are
    untouched. *)
Theorem processProxyResponse_only_appends_for_account response account ctx w :
  exists queued background,
    snd (processProxyResponse response account ctx w)
    = withWrites w queued background
    /\ Forall (fun op => opAccount op = id account) (queued ++ background).
Proof.
  destruct (processProxyResponse_cases response account ctx w)
    as [[t [_ [_ [_ H]]]] | [[t [_ [_ [_ H]]]] | [[_ [_ H]] | [_ [_ H]]]]];
    rewrite H; cbn [snd].
  - eexists _, _. split; [reflexivity|].
    apply Forall_app. split.
    + constructor; [reflexivity | apply Forall_opAccount_metadataOps].
    + apply Forall_opAccount_tierOps.
  - exists [], []. split; [now rewrite withWrites_nil | constructor].
  - exists [], []. split; [now rewrite withWrites_nil | constructor].
  - eexists _, _. split; [reflexivity|].
    apply Forall_app. split.
    + apply Forall_opAccount_metadataOps.
    + apply Forall_opAccount_tierOps.
Qed.

(** X2.  The classifier reports "no failover" exactly for a status of 200
    on a response that does not take the rate-limit branch; a 200 that is
    rate-limited with a reset time on a non-streaming response is failed
    over like any other limit. *)
Theorem processProxyResponse_no_failover_iff response account ctx w :
  fst (processProxyResponse response account ctx w) = Normal false
  <-> status response = 200
      /\ (isStream ctx response = true
          \/ isRateLimited (parseRateLimit (provider ctx) response) = false
          \/ truthyNumber (resetTime (parseRateLimit (provider ctx) response))
             = false).
Proof.
  assert (Hbranch : takesRateLimitBranch ctx response = false
            <-> (isStream ctx response = true
                 \/ isRateLimited (parseRateLimit (provider ctx) response) = false
                 \/ truthyNumber
                      (resetTime (parseRateLimit (provider ctx) response))
                    = false)).
  { unfold takesRateLimitBranch.
    destruct (isStream ctx response),
      (isRateLimited (parseRateLimit (provider ctx) response)),
      (truthyNumber (resetTime (parseRateLimit (provider ctx) response)));
      simpl; intuition congruence. }
  rewrite <- Hbranch.
  destruct (processProxyResponse_cases response account ctx w)
    as [[t [Hb [_ [_ H]]]] | [[t [Hb [_ [_ H]]]] | [[Hb [Hs H]] | [Hb [Hs H]]]]];
    rewrite H; cbn [fst]; split; try discriminate; try (intros [_ Hno]; congruence).
  - intros [H200 _]. contradiction.
  - intros _. now split.
Qed.

(** X3.  [updateAccountMetadata] never throws.  It enqueues one usage
    increment; after it a rate-limit meta update carrying the parsed
    status tag, reset time and remaining count, or nothing when the tag is
    absent or empty; and it leaves to its detached task at most one tier
    update, which is then for a tier that is not 0 and differs from the
    tier the account has. *)
Theorem updateAccountMetadata_contract account response ctx w :
  exists meta tierUpdate,
    updateAccountMetadata account response ctx w
    = (Normal tt,
       withWrites w (UpdateAccountUsage (id account) :: meta) tierUpdate)
    /\ (meta = []
        /\ truthyString (statusHeader (parseRateLimit (provider ctx) response))
           = false
        \/ exists tag,
            statusHeader (parseRateLimit (provider ctx) response) = Some tag
            /\ tag <> ""%string
            /\ meta = [UpdateAccountRateLimitMeta (id account) tag
                         (resetTime (parseRateLimit (provider ctx) response))
                         (remaining (parseRateLimit (provider ctx) response))])
    /\ (tierUpdate = []
        \/ exists extract tier,
            extractTierInfo (provider ctx) = Some extract
            /\ extract response = Some tier
            /\ tier <> 0
            /\ tier <> account_tier account
            /\ tierUpdate = [UpdateAccountTier (id account) tier]).
Proof.
  exists (rateLimitMetaOps account (parseRateLimit (provider ctx) response)),
         (tierOps ctx account response).
  split; [apply updateAccountMetadata_run|]. split.
  - unfold rateLimitMetaOps, truthyString.
    destruct (statusHeader (parseRateLimit (provider ctx) response)) as [tag|];
      [|now left].
    destruct (tag =? "")%string eqn:Htag; [now left|].
    right. exists tag. repeat split. now apply String.eqb_neq.
  - unfold tierOps.
    destruct (extractTierInfo (provider ctx)) as [extract|]; [|now left].
    destruct (extract response) as [tier|] eqn:Hextract; [|now left].
    destruct (tier =? 0) eqn:Hzero; [now left|].
    destruct (tier =? account_tier account) eqn:Hsame; [now left|].
    right. exists extract, tier. cbn [negb andb].
    repeat split; try assumption; now apply Z.eqb_neq.
Qed.

End ClassifierContract.

(* ------------------------------------------------------------------ *)
(** * More on attempts with an account *)

Section AttemptContract.
Import Proxy QueueReading.

Lemma rateLimitMarks_app (l1 l2 : list DbOp) :
  rateLimitMarks (l1 ++ l2) = rateLimitMarks l1 ++ rateLimitMarks l2.
Proof.
  induction l1 as [|op l1 IH]; [reflexivity|].
  destruct op; simpl; now rewrite IH.
Qed.

Lemma rateLimitMarks_metadataOps ctx account response :
  rateLimitMarks (metadataOps ctx account response) = [].
Proof.
  unfold metadataOps, rateLimitMetaOps; simpl.
  destruct (statusHeader (parseRateLimit (provider ctx) response)) as [tag|];
    [|reflexivity].
  now destruct (tag =? "")%string.
Qed.

Lemma rateLimitMarks_afterToken rt account w :
  rateLimitMarks (asyncQueue (afterToken rt account w))
  = rateLimitMarks (asyncQueue w).
Proof.
  unfold afterToken.
  destruct (fst (getValidAccessToken rt (clock w) account)); simpl;
    [|reflexivity].
  rewrite rateLimitMarks_app; simpl. now rewrite app_nil_r.
Qed.

Lemma upstreamCalls_afterToken rt account w :
  upstreamCalls (afterToken rt account w) = upstreamCalls w.
Proof.
  unfold afterToken.
  now destruct (fst (getValidAccessToken rt (clock w) account)).
Qed.

Lemma clientForwards_afterToken rt account w :
  clientForwards (afterToken rt account w) = clientForwards w.
Proof.
  unfold afterToken.
  now destruct (fst (getValidAccessToken rt (clock w) account)).
Qed.

Lemma asyncQueue_afterToken rt account w :
  exists queued,
    asyncQueue (afterToken rt account w) = asyncQueue w ++ queued.
Proof.
  unfold afterToken.
  destruct (fst (getValidAccessToken rt (clock w) account)) as [r|]; simpl.
  - now eexists.
  - exists []. now rewrite app_nil_r.
Qed.

Section OneAttempt.
Variables (rt : Runtime) (req : Request) (url : URL) (account : Account)
  (requestMeta : RequestMeta) (requestBodyBuffer createBodyStream : option string)
  (failoverAttempts : nat) (ctx : ProxyContext) (w : World).

Local Abbreviation attempt :=
  (proxyWithAccount rt req url account requestMeta requestBodyBuffer
     createBodyStream failoverAttempts ctx w).
Local Abbreviation upstreamCall accessToken :=
  (accountRequest req url account createBodyStream ctx accessToken).
Local Abbreviation sent accessToken :=
  (afterUpstream (upstreamCall accessToken) (afterToken rt account w)).
Local Abbreviation handover response :=
  (accountForward req url account requestMeta requestBodyBuffer
     failoverAttempts response).

(** The whole attempt as one equation in the answers of the
    collaborators. *)
Lemma proxyWithAccount_run :
  attempt
  = match snd (getValidAccessToken rt (clock w) account) with
    | Rejected _ => (Fulfilled None, afterToken rt account w)
    | Fulfilled accessToken =>
        match makeProxyRequest rt (S (clock w)) (upstreamCall accessToken) with
        | Rejected _ => (Fulfilled None, sent accessToken)
        | Fulfilled response =>
            match verdict ctx response with
            | Success =>
                (match forwardToClient rt (S (S (clock w))) (handover response) with
                 | Normal forwarded => mapSettled Some forwarded
                 | Abrupt _ => Fulfilled None
                 end,
                 afterForward (handover response)
                   (withWrites (sent accessToken)
                      (metadataOps ctx account response)
                      (tierOps ctx account response)))
            | NonSuccessFailover => (Fulfilled None, sent accessToken)
            | RateLimitFailover =>
                (Fulfilled None,
                 match resetTime (parseRateLimit (provider ctx) response) with
                 | Some t =>
                     if validTimeValue t
                     then withWrites (sent accessToken)
                            (MarkAccountRateLimited (id account) t
                             :: metadataOps ctx account response)
                            (tierOps ctx account response)
                     else sent accessToken
                 | None => sent accessToken
                 end)
            end
        end
    end.
Proof.
  destruct (snd (getValidAccessToken rt (clock w) account))
    as [accessToken|e] eqn:Htoken;
    [|now apply proxyWithAccount_token_error with (e := e)].
  destruct (makeProxyRequest rt (S (clock w)) (upstreamCall accessToken))
    as [response|e] eqn:Hupstream;
    [|now apply proxyWithAccount_upstream_error with (e := e)].
  rewrite (proxyWithAccount_response _ _ _ _ _ _ _ _ _ _ _ _ Htoken Hupstream).
  unfold verdict.
  destruct (processProxyResponse_cases response account ctx (sent accessToken))
    as [[t [Hb [Hr [Hv H]]]] | [[t [Hb [Hr [Hv H]]]] | [[Hb [Hs H]] | [Hb [Hs H]]]]];
    rewrite H, Hb.
  - now rewrite Hr, Hv.
  - now rewrite Hr, Hv.
  - rewrite setHas_success. apply Z.eqb_neq in Hs. now rewrite Hs.
  - rewrite setHas_success, Hs. cbn [negb Z.eqb Pos.eqb].
    cbv zeta. cbn [withWrites afterUpstream clock].
    now rewrite clock_afterToken.
Qed.

(** X4.  The promise of an attempt is settled by three answers: it
    resolves to [null] when the token manager or the forwarder fails, and
    when the classifier does not accept the response; when the classifier
    accepts it, the promise is the one [forwardToClient] returns, or
    [null] if that call throws. *)
Theorem proxyWithAccount_outcome :
  fst (proxyWithAccount rt req url account requestMeta requestBodyBuffer
       createBodyStream failoverAttempts ctx w)
  = match attemptResponse rt req url account createBodyStream ctx w with
    | None => Fulfilled None
    | Some response =>
        match verdict ctx response with
        | Success =>
            match forwardToClient rt (S (S (clock w))) (handover response) with
            | Normal forwarded => mapSettled Some forwarded
            | Abrupt _ => Fulfilled None
            end
        | _ => Fulfilled None
        end
    end.
Proof.
  rewrite proxyWithAccount_run. unfold attemptResponse.
  destruct (snd (getValidAccessToken rt (clock w) account))
    as [accessToken|e]; [|reflexivity].
  destruct (makeProxyRequest rt (S (clock w)) (upstreamCall accessToken))
    as [response|e]; [|reflexivity].
  now destruct (verdict ctx response).
Qed.

(** X5.  An attempt hands back a response only for an upstream answer of
    status 200 that did not take the rate-limit branch, and the response
    it hands back is the one the promise of [forwardToClient] fulfilled
    with. *)
Theorem proxyWithAccount_returns_only_accepted_responses resp :
  fst (proxyWithAccount rt req url account requestMeta requestBodyBuffer
       createBodyStream failoverAttempts ctx w) = Fulfilled (Some resp) ->
  exists response,
    attemptResponse rt req url account createBodyStream ctx w = Some response
    /\ status response = 200
    /\ takesRateLimitBranch ctx response = false
    /\ forwardToClient rt (S (S (clock w))) (handover response)
       = Normal (Fulfilled resp).
Proof.
  rewrite proxyWithAccount_run. unfold attemptResponse.
  destruct (snd (getValidAccessToken rt (clock w) account))
    as [accessToken|e]; [|discriminate].
  destruct (makeProxyRequest rt (S (clock w)) (upstreamCall accessToken))
    as [response|e]; [|discriminate].
  unfold verdict.
  destruct (takesRateLimitBranch ctx response) eqn:Hb; [discriminate|].
  rewrite setHas_success.
  destruct (status response =? 200) eqn:Hs; [|discriminate].
  cbn [negb fst].
  destruct (forwardToClient rt (S (S (clock w))) (handover response))
    as [[forwarded|e]|e] eqn:Hforward; try discriminate.
  intros [= ->]. exists response.
  split; [reflexivity|]. split; [now apply Z.eqb_eq|]. now split.
Qed.

(** X6.  An attempt sends nothing upstream when the token manager fails,
    and otherwise exactly one request: the one built for the account with
    the token it was given. *)
Theorem proxyWithAccount_upstream_calls :
  upstreamCalls (snd (proxyWithAccount rt req url account requestMeta requestBodyBuffer
       createBodyStream failoverAttempts ctx w))
  = upstreamCalls w
    ++ match snd (getValidAccessToken rt (clock w) account) with
       | Fulfilled accessToken => [upstreamCall accessToken]
       | Rejected _ => []
       end.
Proof.
  rewrite proxyWithAccount_run.
  destruct (snd (getValidAccessToken rt (clock w) account))
    as [accessToken|e]; cbn [snd];
    [|now rewrite upstreamCalls_afterToken, app_nil_r].
  destruct (makeProxyRequest rt (S (clock w)) (upstreamCall accessToken))
    as [response|e]; cbn [snd afterUpstream upstreamCalls];
    [|now rewrite upstreamCalls_afterToken].
  destruct (verdict ctx response); cbn [snd].
  - destruct (resetTime (parseRateLimit (provider ctx) response)) as [t|];
      [destruct (validTimeValue t)|];
      cbn [withWrites afterUpstream upstreamCalls];
      now rewrite upstreamCalls_afterToken.
  - cbn [afterUpstream upstreamCalls]. now rewrite upstreamCalls_afterToken.
  - cbn [afterForward withWrites afterUpstream upstreamCalls].
    now rewrite upstreamCalls_afterToken.
Qed.

(** X7.  An attempt calls [forwardToClient] at most once, and only for a
    response the classifier accepted; the options name the account and
    the number of failovers before this attempt. *)
Theorem proxyWithAccount_client_forwards :
  clientForwards (snd (proxyWithAccount rt req url account requestMeta requestBodyBuffer
       createBodyStream failoverAttempts ctx w))
  = clientForwards w
    ++ match attemptResponse rt req url account createBodyStream ctx w with
       | Some response =>
           match verdict ctx response with
           | Success => [handover response]
           | _ => []
           end
       | None => []
       end.
Proof.
  rewrite proxyWithAccount_run. unfold attemptResponse.
  destruct (snd (getValidAccessToken rt (clock w) account))
    as [accessToken|e]; cbn [snd];
    [|now rewrite clientForwards_afterToken, app_nil_r].
  destruct (makeProxyRequest rt (S (clock w)) (upstreamCall accessToken))
    as [response|e]; cbn [snd afterUpstream clientForwards];
    [|now rewrite clientForwards_afterToken, app_nil_r].
  destruct (verdict ctx response); cbn [snd].
  - destruct (resetTime (parseRateLimit (provider ctx) response)) as [t|];
      [destruct (validTimeValue t)|];
      cbn [withWrites afterUpstream clientForwards];
      now rewrite clientForwards_afterToken, app_nil_r.
  - cbn [afterUpstream clientForwards].
    now rewrite clientForwards_afterToken, app_nil_r.
  - cbn [afterForward withWrites afterUpstream clientForwards].
    now rewrite clientForwards_afterToken.
Qed.

(** X8.  The only rate-limit mark an attempt can enqueue is one for its
    own account, on the rate-limit branch, until the reset time parsed
    from the response it received. *)
Theorem proxyWithAccount_marks :
  rateLimitMarks (asyncQueue (snd (proxyWithAccount rt req url account requestMeta requestBodyBuffer
       createBodyStream failoverAttempts ctx w)))
  = rateLimitMarks (asyncQueue w)
    ++ match attemptResponse rt req url account createBodyStream ctx w with
       | Some response =>
           match verdict ctx response,
                 resetTime (parseRateLimit (provider ctx) response) with
           | RateLimitFailover, Some t =>
               if validTimeValue t then [(id account, t)] else []
           | _, _ => []
           end
       | None => []
       end.
Proof.
  rewrite proxyWithAccount_run. unfold attemptResponse.
  destruct (snd (getValidAccessToken rt (clock w) account))
    as [accessToken|e]; cbn [snd];
    [|now rewrite rateLimitMarks_afterToken, app_nil_r].
  destruct (makeProxyRequest rt (S (clock w)) (upstreamCall accessToken))
    as [response|e]; cbn [snd afterUpstream asyncQueue];
    [|now rewrite rateLimitMarks_afterToken, app_nil_r].
  destruct (verdict ctx response); cbn [snd].
  - destruct (resetTime (parseRateLimit (provider ctx) response)) as [t|];
      [destruct (validTimeValue t)|];
      cbn [withWrites afterUpstream asyncQueue];
      try now rewrite rateLimitMarks_afterToken, app_nil_r.
    rewrite rateLimitMarks_app. cbn [rateLimitMarks].
    now rewrite rateLimitMarks_metadataOps, rateLimitMarks_afterToken.
  - cbn [afterUpstream asyncQueue].
    now rewrite rateLimitMarks_afterToken, app_nil_r.
  - cbn [afterForward withWrites afterUpstream asyncQueue].
    now rewrite rateLimitMarks_app, rateLimitMarks_metadataOps,
      rateLimitMarks_afterToken.
Qed.

(** X9.  A rate-limited response whose reset time lies beyond the range
    of a [Date] makes the classifier throw a [RangeError] before it has
    enqueued anything; the attempt absorbs the error and resolves to [null], and
    the account is left without mark, usage increment or meta update. *)
Theorem out_of_range_reset_fails_over_unmarked accessToken response t :
  snd (getValidAccessToken rt (clock w) account) = Fulfilled accessToken ->
  makeProxyRequest rt (S (clock w)) (upstreamCall accessToken)
  = Fulfilled response ->
  takesRateLimitBranch ctx response = true ->
  resetTime (parseRateLimit (provider ctx) response) = Some t ->
  validTimeValue t = false ->
  (exists message,
      processProxyResponse response account ctx (sent accessToken)
      = (Abrupt (RangeError message), sent accessToken))
  /\ proxyWithAccount rt req url account requestMeta requestBodyBuffer
       createBodyStream failoverAttempts ctx w
     = (Fulfilled None, sent accessToken).
Proof.
  intros Htoken Hupstream Hbranch Hreset Hvalid. split.
  - eexists. unfold invalidDate in *.
    now apply processProxyResponse_rate_limit_throws with (t := t).
  - rewrite proxyWithAccount_run, Htoken, Hupstream.
    unfold verdict. now rewrite Hbranch, Hreset, Hvalid.
Qed.

Lemma proxyWithAccount_upstream_bound :
  (List.length (upstreamCalls (snd attempt))
   <= S (List.length (upstreamCalls w)))%nat.
Proof.
  rewrite proxyWithAccount_run.
  destruct (snd (getValidAccessToken rt (clock w) account))
    as [accessToken|e]; cbn [snd];
    [|rewrite upstreamCalls_afterToken; lia].
  destruct (makeProxyRequest rt (S (clock w)) (upstreamCall accessToken))
    as [response|e]; cbn [snd afterUpstream upstreamCalls];
    [|rewrite upstreamCalls_afterToken, length_app; simpl; lia].
  destruct (verdict ctx response); cbn [snd].
  - destruct (resetTime (parseRateLimit (provider ctx) response)) as [t|];
      [destruct (validTimeValue t)|];
      cbn [withWrites afterUpstream upstreamCalls];
      rewrite upstreamCalls_afterToken, length_app; simpl; lia.
  - cbn [afterUpstream upstreamCalls].
    rewrite upstreamCalls_afterToken, length_app; simpl; lia.
  - cbn [afterForward withWrites afterUpstream upstreamCalls].
    rewrite upstreamCalls_afterToken, length_app; simpl; lia.
Qed.

(** An attempt only appends to the async queue. *)
Lemma proxyWithAccount_queue_extends :
  exists queued, asyncQueue (snd attempt) = asyncQueue w ++ queued.
Proof.
  rewrite proxyWithAccount_run.
  destruct (asyncQueue_afterToken rt account w) as [q0 Hq0].
  destruct (snd (getValidAccessToken rt (clock w) account))
    as [accessToken|e]; cbn [snd]; [|now exists q0].
  destruct (makeProxyRequest rt (S (clock w)) (upstreamCall accessToken))
    as [response|e]; cbn [snd afterUpstream asyncQueue]; [|now exists q0].
  destruct (verdict ctx response); cbn [snd].
  - destruct (resetTime (parseRateLimit (provider ctx) response)) as [t|];
      [destruct (validTimeValue t)|];
      cbn [withWrites afterUpstream asyncQueue]; try now exists q0.
    rewrite Hq0, <- app_assoc. now eexists.
  - cbn [afterUpstream asyncQueue]. now exists q0.
  - cbn [afterForward withWrites afterUpstream asyncQueue].
    rewrite Hq0, <- app_assoc. now eexists.
Qed.

End OneAttempt.

(** X10.  A chain of failed attempts never drops or reorders what was
    already queued for the async writer, and sends at most one upstream
    request per account it tried. *)
Theorem failoverChain_appends_and_bounds_upstream rt req url requestMeta
    requestBodyBuffer createBodyStream ctx failed :
  forall failoverAttempts w starts w1,
    failoverChain rt req url requestMeta requestBodyBuffer createBodyStream ctx
      failed failoverAttempts w = Some (starts, w1) ->
    (exists queued, asyncQueue w1 = asyncQueue w ++ queued)
    /\ (List.length (upstreamCalls w1)
        <= List.length (upstreamCalls w) + List.length failed)%nat.
Proof.
  induction failed as [|account rest IH]; intros i w starts w1; simpl.
  - intros [= <- <-]. split; [exists []; now rewrite app_nil_r | lia].
  - pose proof (proxyWithAccount_queue_extends rt req url account requestMeta
                  requestBodyBuffer createBodyStream i ctx w) as [q Hq].
    pose proof (proxyWithAccount_upstream_bound rt req url account requestMeta
                  requestBodyBuffer createBodyStream i ctx w) as Hcalls.
    destruct (proxyWithAccount rt req url account requestMeta requestBodyBuffer
                createBodyStream i ctx w) as [[[resp|]|e] wa];
      try discriminate.
    destruct (failoverChain rt req url requestMeta requestBodyBuffer
                createBodyStream ctx rest (S i) wa) as [[starts' w2]|] eqn:Hrest;
      try discriminate.
    intros [= <- <-].
    destruct (IH _ _ _ _ Hrest) as [[q' Hq'] Hbound].
    cbn [snd] in Hq, Hcalls. split.
    + exists (q ++ q'). now rewrite Hq', Hq, app_assoc.
    + lia.
Qed.

End AttemptContract.

(* ------------------------------------------------------------------ *)
(** * More on the OAuth flow *)

Section OAuthContract.
Import OAuthFlow.

Section CompleteContract.
Variables (pf : Platform) (opts : CompleteOptions) (flowData : BeginResult)
  (st : Store).

Local Abbreviation exchanged p :=
  (exchangeCode p (code opts) (verifier (pkce flowData)) (oauthConfig flowData)).
Local Abbreviation issued := (mkStore (accounts st) (S (calls st))).
Local Abbreviation theTier := (match tier opts with Some t => t | None => 1 end).
Local Abbreviation consolePath tokens :=
  (isConsole (mode flowData) || negb (truthyString (refreshToken tokens))).

(** [createAnthropicApiKey] in one equation. *)
Lemma createAnthropicApiKey_run token base st0 :
  createAnthropicApiKey pf token base st0
  = if truthyString base
       && negb (orEmpty base =? "https://api.anthropic.com")%string
    then (Rejected (Error "Custom base URL accounts should use direct API key input, not OAuth API key creation"),
          st0)
    else
      (match fetchCreateApiKey pf (calls st0) token with
       | Fulfilled response =>
           if ok response then json_raw_key response
           else Rejected (Error ("Failed to create API key: "
                                 ++ fetchStatusText response))
       | Rejected e => Rejected e
       end, mkStore (accounts st0) (S (calls st0))).
Proof.
  unfold createAnthropicApiKey, runAsync, bind, nextCall.
  destruct (truthyString base && _); [reflexivity|].
  destruct (fetchCreateApiKey pf (calls st0) token) as [response|e];
    [|reflexivity].
  cbn [await ret]. destruct (ok response); [|reflexivity].
  cbn [negb]. destruct (json_raw_key response); reflexivity.
Qed.

(** Every fulfilled [complete] went through the exchange. *)
Lemma complete_fulfilled_exchange created st' :
  complete pf opts flowData st = (Fulfilled created, st') ->
  exists p tokens,
    getOAuthProvider pf "anthropic" = Some p
    /\ exchanged p = Fulfilled tokens
    /\ (consolePath tokens = true -> truthyString (baseUrl flowData) = false).
Proof.
  destruct (getOAuthProvider pf "anthropic") as [p|] eqn:Hp;
    [|rewrite (complete_no_provider _ _ _ _ Hp); discriminate].
  destruct (exchanged p) as [tokens|e] eqn:Hx;
    [|rewrite (complete_exchange_fails _ _ _ _ _ _ Hp Hx); discriminate].
  intros Hdone. exists p, tokens. split; [reflexivity|]. split; [exact Hx|].
  intros Hconsole.
  destruct (truthyString (baseUrl flowData)) eqn:Hbase; [|reflexivity].
  rewrite (complete_console_custom_base_url _ _ _ _ _ _ Hp Hx Hconsole Hbase)
    in Hdone.
  discriminate Hdone.
Qed.

(** X11.  A call to [complete] that rejects, for whatever reason, leaves
    the accounts table exactly as it was: no partial account is stored. *)
Theorem complete_rejection_leaves_accounts e :
  fst (complete pf opts flowData st) = Rejected e ->
  accounts (snd (complete pf opts flowData st)) = accounts st.
Proof.
  destruct (getOAuthProvider pf "anthropic") as [p|] eqn:Hp;
    [|now rewrite (complete_no_provider _ _ _ _ Hp)].
  destruct (exchanged p) as [tokens|e0] eqn:Hx;
    [|now rewrite (complete_exchange_fails _ _ _ _ _ _ Hp Hx)].
  destruct (consolePath tokens) eqn:Hconsole.
  - destruct (truthyString (baseUrl flowData)) eqn:Hbase;
      [now rewrite (complete_console_custom_base_url _ _ _ _ _ _ Hp Hx
                      Hconsole Hbase)|].
    rewrite (complete_console _ _ _ _ _ _ Hp Hx Hconsole Hbase).
    pose proof (createAnthropicApiKey_preserves_accounts pf
                  (accessToken tokens) (baseUrl flowData) issued) as Hkeep.
    destruct (createAnthropicApiKey pf (accessToken tokens) (baseUrl flowData) _)
      as [[apiKey|e0] st1]; [discriminate|].
    intros _. exact Hkeep.
  - rewrite (complete_oauth _ _ _ _ _ _ Hp Hx Hconsole). discriminate.
Qed.

(** The auth type follows the path [complete] takes. *)
Lemma complete_path_auth_type p tokens created st' :
  getOAuthProvider pf "anthropic" = Some p ->
  exchanged p = Fulfilled tokens ->
  complete pf opts flowData st = (Fulfilled created, st') ->
  authType created = if consolePath tokens then api_key else oauth.
Proof.
  intros Hp Hx.
  destruct (consolePath tokens) eqn:Hconsole.
  - destruct (truthyString (baseUrl flowData)) eqn:Hbase;
      [rewrite (complete_console_custom_base_url _ _ _ _ _ _ Hp Hx
                  Hconsole Hbase); discriminate|].
    rewrite (complete_console _ _ _ _ _ _ Hp Hx Hconsole Hbase).
    destruct (createAnthropicApiKey pf (accessToken tokens) (baseUrl flowData) _)
      as [[apiKey|e0] st1]; [|discriminate].
    now intros [= <- _].
  - rewrite (complete_oauth _ _ _ _ _ _ Hp Hx Hconsole). now intros [= <- _].
Qed.

(** X12.  The auth type of the account [complete] creates is decided by
    the flow and the exchange alone: it is an API-key account exactly
    when the flow is in console mode or the exchange returned no refresh
    token, and an OAuth account otherwise. *)
Theorem complete_auth_type p tokens created st' :
  getOAuthProvider pf "anthropic" = Some p ->
  exchanged p = Fulfilled tokens ->
  complete pf opts flowData st = (Fulfilled created, st') ->
  (authType created = api_key
   <-> mode flowData = console \/ truthyString (refreshToken tokens) = false)
  /\ (authType created = oauth
      <-> mode flowData = max /\ truthyString (refreshToken tokens) = true).
Proof.
  intros Hp Hx Hdone.
  rewrite (complete_path_auth_type _ _ _ _ Hp Hx Hdone).
  destruct (mode flowData), (truthyString (refreshToken tokens));
    cbn; split; split; intuition congruence.
Qed.

(** X13.  The account [complete] reports is the row it stored: the id is
    the UUID drawn for this call, the tier is the requested one, or 1
    when none was requested, and the provider is ["anthropic"], in the
    report and in the row alike. *)
Theorem complete_reports_the_stored_row created st' :
  complete pf opts flowData st = (Fulfilled created, st') ->
  exists row,
    accounts st' = accounts st ++ [row]
    /\ createdId created = randomUUID pf (calls st)
    /\ row_id row = randomUUID pf (calls st)
    /\ createdName created = completeName opts
    /\ createdTier created = theTier
    /\ row_account_tier row = theTier
    /\ createdProvider created = "anthropic"%string
    /\ row_provider row = "anthropic"%string.
Proof.
  intros Hdone.
  destruct (complete_fulfilled_exchange _ _ Hdone) as [p [tokens [Hp [Hx Hbase]]]].
  destruct (consolePath tokens) eqn:Hconsole.
  - rewrite (complete_console _ _ _ _ _ _ Hp Hx Hconsole (Hbase eq_refl))
      in Hdone.
    pose proof (createAnthropicApiKey_preserves_accounts pf
                  (accessToken tokens) (baseUrl flowData) issued) as Hkeep.
    destruct (createAnthropicApiKey pf (accessToken tokens) (baseUrl flowData) _)
      as [[apiKey|e0] st1]; [|discriminate].
    cbn [snd accounts] in Hkeep.
    injection Hdone as <- <-. eexists. cbn [accounts]. rewrite Hkeep.
    now repeat split.
  - rewrite (complete_oauth _ _ _ _ _ _ Hp Hx Hconsole) in Hdone.
    injection Hdone as <- <-. eexists. now repeat split.
Qed.

(** X14.  An OAuth account is stored with the tokens of the exchange as
    they came: the refresh token, which is then not empty, the access
    token and the expiry; its base URL is the one of the flow, or null. *)
Theorem complete_oauth_row_holds_exchanged_tokens created st' :
  complete pf opts flowData st = (Fulfilled created, st') ->
  authType created = oauth ->
  exists p tokens row,
    getOAuthProvider pf "anthropic" = Some p
    /\ exchanged p = Fulfilled tokens
    /\ accounts st' = accounts st ++ [row]
    /\ truthyString (refreshToken tokens) = true
    /\ row_refresh_token row = refreshToken tokens
    /\ row_access_token row = Some (accessToken tokens)
    /\ row_expires_at row = Some (expiresAt tokens)
    /\ row_base_url row = orUndefined (baseUrl flowData).
Proof.
  intros Hdone Hauth.
  destruct (complete_fulfilled_exchange _ _ Hdone) as [p [tokens [Hp [Hx Hbase]]]].
  pose proof (complete_path_auth_type _ _ _ _ Hp Hx Hdone) as Htype.
  rewrite Hauth in Htype.
  destruct (consolePath tokens) eqn:Hconsole; [discriminate Htype|].
  rewrite (complete_oauth _ _ _ _ _ _ Hp Hx Hconsole) in Hdone.
  injection Hdone as <- <-.
  apply orb_false_iff in Hconsole as [_ Hrefresh].
  apply negb_false_iff in Hrefresh.
  exists p, tokens. eexists. repeat split; try assumption.
  cbn [row_refresh_token].
  destruct (refreshToken tokens) as [r|]; [reflexivity | discriminate Hrefresh].
Qed.

(** X15.  An API-key account is stored with whatever [raw_key] the body
    of the console endpoint's ok response carried for the access token of
    the exchange, null when it carried none, and always with a null base
    URL. *)
Theorem complete_api_key_row created st' :
  complete pf opts flowData st = (Fulfilled created, st') ->
  authType created = api_key ->
  exists p tokens response key row,
    getOAuthProvider pf "anthropic" = Some p
    /\ exchanged p = Fulfilled tokens
    /\ fetchCreateApiKey pf (S (calls st)) (accessToken tokens)
       = Fulfilled response
    /\ ok response = true
    /\ json_raw_key response = Fulfilled key
    /\ accounts st' = accounts st ++ [row]
    /\ row_api_key row = key
    /\ row_base_url row = None.
Proof.
  intros Hdone Hauth.
  destruct (complete_fulfilled_exchange _ _ Hdone) as [p [tokens [Hp [Hx Hbase]]]].
  pose proof (complete_path_auth_type _ _ _ _ Hp Hx Hdone) as Htype.
  rewrite Hauth in Htype.
  destruct (consolePath tokens) eqn:Hconsole; [|discriminate Htype].
  specialize (Hbase eq_refl).
  rewrite (complete_console _ _ _ _ _ _ Hp Hx Hconsole Hbase) in Hdone.
  rewrite createAnthropicApiKey_run in Hdone.
  rewrite Hbase in Hdone. cbn [andb calls accounts] in Hdone.
  destruct (fetchCreateApiKey pf (S (calls st)) (accessToken tokens))
    as [response|e0] eqn:Hfetch; [|discriminate Hdone].
  destruct (ok response) eqn:Hok; [|discriminate Hdone].
  destruct (json_raw_key response) as [key|e0] eqn:Hkey; [|discriminate Hdone].
  injection Hdone as <- <-.
  exists p, tokens, response, key. eexists.
  repeat split; try assumption.
  cbn [row_base_url]. unfold orUndefined. now rewrite Hbase.
Qed.

(** X16.  [createAnthropicApiKey] fulfils exactly when the base URL is
    absent, empty or the Anthropic one, the console endpoint answers with
    an ok response, and the body of the response can be read; the key is
    then the [raw_key] of the body.  With any other base URL the endpoint
    is not called. *)
Theorem createAnthropicApiKey_fulfils_iff token base st0 key :
  (fst (createAnthropicApiKey pf token base st0) = Fulfilled key
   <-> (truthyString base = false
        \/ base = Some "https://api.anthropic.com"%string)
       /\ exists response,
           fetchCreateApiKey pf (calls st0) token = Fulfilled response
           /\ ok response = true
           /\ json_raw_key response = Fulfilled key)
  /\ (truthyString base = true ->
      base <> Some "https://api.anthropic.com"%string ->
      snd (createAnthropicApiKey pf token base st0) = st0).
Proof.
  rewrite createAnthropicApiKey_run.
  assert (Hguard : truthyString base
                   && negb (orEmpty base =? "https://api.anthropic.com")%string
                   = false
            <-> (truthyString base = false
                 \/ base = Some "https://api.anthropic.com"%string)).
  { destruct base as [b|]; cbn [truthyString orEmpty].
    - destruct (b =? "")%string eqn:Hempty; cbn [negb andb].
      + split; [now left | reflexivity].
      + destruct (b =? "https://api.anthropic.com")%string eqn:Hstd;
          cbn [negb].
        * apply String.eqb_eq in Hstd. subst b. split; [now right | reflexivity].
        * apply String.eqb_neq in Hstd. split; [discriminate|].
          intros [Hf | [= Hb]]; [discriminate Hf | contradiction].
    - split; [now left | reflexivity]. }
  split.
  - destruct (truthyString base
              && negb (orEmpty base =? "https://api.anthropic.com")%string)
      eqn:Hg; cbn [fst].
    + split; [discriminate|].
      intros [Hok _]. apply Hguard in Hok. discriminate Hok.
    + split.
      * intros Hres. split; [now apply Hguard|].
        destruct (fetchCreateApiKey pf (calls st0) token) as [response|e];
          [|discriminate Hres].
        exists response. split; [reflexivity|].
        destruct (ok response); [now split | discriminate Hres].
      * intros [_ [response [Hfetch [Hok Hkey]]]].
        now rewrite Hfetch, Hok.
  - intros Htruthy Hcustom.
    destruct (truthyString base
              && negb (orEmpty base =? "https://api.anthropic.com")%string)
      eqn:Hg; [reflexivity|].
    destruct (proj1 Hguard eq_refl) as [Hf | Hb]; [congruence | contradiction].
Qed.

End CompleteContract.

(** X17.  [begin] fulfils exactly when the name is not stored, the
    Anthropic OAuth provider is registered and the PKCE challenge can be
    generated. *)
Theorem begin_fulfils_iff pf opts st :
  (exists result, fst (begin pf opts st) = Fulfilled result)
  <-> ~ In (beginName opts) (map row_name (accounts st))
      /\ (exists oauthProvider,
            getOAuthProvider pf "anthropic" = Some oauthProvider)
      /\ (exists challenge, generatePKCE pf (calls st) = Fulfilled challenge).
Proof.
  unfold begin, runAsync, bind, getAllAccounts, nextCall.
  destruct (existsb (fun a => (row_name a =? beginName opts)%string)
              (accounts st)) eqn:Hname.
  - apply existsb_name_In in Hname. split.
    + intros [result Hres]. discriminate Hres.
    + intros [Hnot _]. contradiction.
  - assert (Hnot : ~ In (beginName opts) (map row_name (accounts st))).
    { intros Hin. apply existsb_name_In in Hin. congruence. }
    destruct (getOAuthProvider pf "anthropic") as [p|].
    + destruct (generatePKCE pf (calls st)) as [challenge|e]; cbn [await ret].
      * split; [|intros _; eexists; reflexivity].
        intros _. split; [assumption|]. split; eexists; reflexivity.
      * split; [intros [result Hres]; discriminate Hres|].
        intros [_ [_ [challenge Hc]]]. discriminate Hc.
    + split; [intros [result Hres]; discriminate Hres|].
      intros [_ [[p Hp] _]]. discriminate Hp.
Qed.

(** X18.  What a fulfilled [begin] returns: the mode and base URL it was
    given, the challenge that was generated, the configuration of the
    provider for that mode with the client id replaced by the one of the
    runtime configuration, the authorization URL the provider generates
    from that configuration and challenge, and a fresh session id; the
    accounts are not touched. *)
Theorem begin_result pf opts st result st' :
  begin pf opts st = (Fulfilled result, st') ->
  exists oauthProvider,
    getOAuthProvider pf "anthropic" = Some oauthProvider
    /\ generatePKCE pf (calls st) = Fulfilled (pkce result)
    /\ oauthConfig result
       = withClientId (getOAuthConfig oauthProvider (beginMode opts))
                      (runtimeClientId pf)
    /\ clientId (oauthConfig result) = runtimeClientId pf
    /\ authUrl result
       = generateAuthUrl oauthProvider (oauthConfig result) (pkce result)
    /\ sessionId result = randomUUID pf (S (calls st))
    /\ mode result = beginMode opts
    /\ baseUrl result = beginBaseUrl opts
    /\ st' = mkStore (accounts st) (S (S (calls st))).
Proof.
  unfold begin, runAsync, bind, getAllAccounts, nextCall.
  destruct (existsb _ (accounts st)); [discriminate|].
  destruct (getOAuthProvider pf "anthropic") as [p|]; [|discriminate].
  destruct (generatePKCE pf (calls st)) as [challenge|e]; [|discriminate].
  cbn [await ret async calls accounts].
  intros [= <- <-]. exists p. now repeat split.
Qed.

(** X19.  [begin] followed by [complete] under the same name keeps the
    account names unique: if no two stored accounts share a name, [begin]
    fulfils for a name, and [complete] then stores an account under that
    name on the same accounts table, no two accounts share a name
    afterwards. *)
Theorem begin_then_complete_keeps_names_unique
    pf beginOpts completeOpts flowData st result st1 created st2 :
  NoDup (map row_name (accounts st)) ->
  fst (begin pf beginOpts st) = Fulfilled result ->
  accounts st1 = accounts st ->
  completeName completeOpts = beginName beginOpts ->
  complete pf completeOpts flowData st1 = (Fulfilled created, st2) ->
  NoDup (map row_name (accounts st2)).
Proof.
  intros Hunique Hbegin Hsame Hname Hdone.
  assert (Hfresh : ~ In (beginName beginOpts) (map row_name (accounts st))).
  { intros Hin. apply existsb_name_In in Hin.
    unfold begin, runAsync, bind, getAllAccounts in Hbegin.
    rewrite Hin in Hbegin. discriminate Hbegin. }
  destruct (complete_fulfilled_exchange _ _ _ _ _ _ Hdone)
    as [p [tokens [Hp [Hx Hbase]]]].
  assert (Hrow : exists row,
             accounts st2 = accounts st1 ++ [row]
             /\ row_name row = completeName completeOpts).
  { destruct (isConsole (mode flowData)
              || negb (truthyString (refreshToken tokens))) eqn:Hconsole.
    - rewrite (complete_console _ _ _ _ _ _ Hp Hx Hconsole (Hbase eq_refl))
        in Hdone.
      pose proof (createAnthropicApiKey_preserves_accounts pf
                    (accessToken tokens) (baseUrl flowData)
                    (mkStore (accounts st1) (S (calls st1)))) as Hkeep.
      destruct (createAnthropicApiKey pf (accessToken tokens)
                  (baseUrl flowData) _) as [[apiKey|e0] stk];
        [|discriminate].
      cbn [snd accounts] in Hkeep.
      injection Hdone as <- <-. eexists. cbn [accounts]. rewrite Hkeep.
      now split.
    - rewrite (complete_oauth _ _ _ _ _ _ Hp Hx Hconsole) in Hdone.
      injection Hdone as <- <-. eexists. now split. }
  destruct Hrow as [row [Hrows Hrowname]].
  rewrite Hrows, Hsame, map_app. cbn [map].
  rewrite Hrowname, Hname.
  apply NoDup_app; [assumption | repeat constructor; intros [] | ].
  intros n Hin [<- | []]. contradiction.
Qed.

End OAuthContract.

(* ------------------------------------------------------------------ *)
(** * The dashboard *)

Section EditDialogContract.
Import Dashboard.

(** What a form that passes [validateForm] looks like. *)
Lemma validateForm_true formData :
  snd (validateForm formData) = true
  <-> trim (formName formData) <> ""%string
      /\ (String.length (trim (formName formData)) <= 100)%nat
      /\ (rateLimitOverrideEnabled formData = true ->
          1 <= customLimit formData <= 100000
          /\ 1 <= resetWindowMinutes formData <= 1440).
Proof.
  unfold validateForm, errorCount. cbn [snd nameError customLimitError
    resetWindowMinutesError].
  destruct (trim (formName formData) =? "")%string eqn:Hempty.
  - apply String.eqb_eq in Hempty. cbn. split; [discriminate|].
    intros [Hne _]. contradiction.
  - apply String.eqb_neq in Hempty.
    destruct (Nat.ltb 100 (String.length (trim (formName formData)))) eqn:Hlen.
    + apply Nat.ltb_lt in Hlen. cbn. split; [discriminate|].
      intros [_ [Hle _]]. lia.
    + apply Nat.ltb_ge in Hlen.
      destruct (rateLimitOverrideEnabled formData); cbn [andb].
      * destruct (Z.ltb_spec (customLimit formData) 1);
          destruct (Z.ltb_spec 100000 (customLimit formData));
          destruct (Z.ltb_spec (resetWindowMinutes formData) 1);
          destruct (Z.ltb_spec 1440 (resetWindowMinutes formData));
          cbn; (split; [try discriminate | ]);
          try (intros [_ [_ Hr]]; specialize (Hr eq_refl); lia);
          intros _; (split; [assumption|]); (split; [assumption|]);
          intros _; lia.
      * cbn. split; [|reflexivity].
        intros _. split; [assumption|]. split; [assumption|]. discriminate.
Qed.

(** What [handleSubmit] hands to [onSave], read back field by field. *)
Lemma handleSubmit_inv account formData errors accountId updates :
  handleSubmit account formData = (errors, Some (accountId, updates)) ->
  exists a,
    account = Some a
    /\ accountId = id a
    /\ snd (validateForm formData) = true
    /\ newName updates
       = (if negb (trim (formName formData) =? name a)%string
          then Some (trim (formName formData)) else None)
    /\ newTier updates
       = (if negb (formTier formData =? tier a)
          then Some (formTier formData) else None)
    /\ newPaused updates
       = (if negb (Bool.eqb (formPaused formData) (paused a))
          then Some (formPaused formData) else None)
    /\ rateLimitOverride updates
       = (if rateLimitOverrideEnabled formData
          then Some (mkRateLimitOverride true (Some (customLimit formData))
                       (Some (resetWindowMinutes formData)))
          else None).
Proof.
  unfold handleSubmit. destruct account as [a|]; [|discriminate].
  destruct (validateForm formData) as [newErrors valid] eqn:Hvalidate.
  destruct valid; cbn [negb]; [|discriminate].
  destruct (Nat.ltb 0 _); [|discriminate].
  intros [= _ <- <-]. exists a. cbn [snd]. now repeat split.
Qed.

(** X20.  [validateForm] accepts a form exactly when the trimmed name has
    between 1 and 100 characters and, if the rate-limit override is
    switched on, the custom limit lies between 1 and 100000 and the reset
    window between 1 and 1440 minutes; it accepts exactly when it records
    no error. *)
Theorem validateForm_accepts_iff formData :
  (snd (validateForm formData) = true
   <-> trim (formName formData) <> ""%string
       /\ (String.length (trim (formName formData)) <= 100)%nat
       /\ (rateLimitOverrideEnabled formData = true ->
           1 <= customLimit formData <= 100000
           /\ 1 <= resetWindowMinutes formData <= 1440))
  /\ (snd (validateForm formData) = true
      <-> fst (validateForm formData) = mkFormErrors None None None).
Proof.
  split; [apply validateForm_true|].
  unfold validateForm, errorCount. cbn [fst snd nameError customLimitError
    resetWindowMinutesError].
  destruct (if (trim (formName formData) =? "")%string then _ else _);
    destruct (if rateLimitOverrideEnabled formData && _ then _ else _);
    destruct (if rateLimitOverrideEnabled formData
                 && ((resetWindowMinutes formData <? 1) || _)
              then _ else _);
    cbn; split; congruence.
Qed.

(** X21.  When [handleSubmit] calls [onSave], it does so for the account
    of the dialog, with at least one change, and every change it sends is
    a real and valid one: a name is the trimmed name of the form, has
    between 1 and 100 characters and differs from the stored name; a tier
    or a pause flag differs from the stored one; an override is enabled
    and within the bounds of the form. *)
Theorem handleSubmit_sends_valid_changes
    account formData errors accountId updates :
  handleSubmit account formData = (errors, Some (accountId, updates)) ->
  exists a,
    account = Some a
    /\ accountId = id a
    /\ (0 < updateCount updates)%nat
    /\ (forall n, newName updates = Some n ->
          n = trim (formName formData) /\ n <> ""%string
          /\ (String.length n <= 100)%nat /\ n <> name a)
    /\ (forall t, newTier updates = Some t ->
          t = formTier formData /\ t <> tier a)
    /\ (forall p, newPaused updates = Some p ->
          p = formPaused formData /\ p <> paused a)
    /\ (forall o, rateLimitOverride updates = Some o ->
          enabled o = true
          /\ exists limit window,
              overrideLimit o = Some limit /\ overrideWindow o = Some window
              /\ 1 <= limit <= 100000 /\ 1 <= window <= 1440).
Proof.
  intros Hsubmit.
  assert (Hcount : (0 < updateCount updates)%nat).
  { unfold handleSubmit in Hsubmit. destruct account as [a|]; [|discriminate].
    destruct (validateForm formData) as [newErrors valid].
    destruct valid; cbn [negb] in Hsubmit; [|discriminate].
    destruct (Nat.ltb 0 _) eqn:Hpos; [|discriminate].
    injection Hsubmit as _ _ <-. now apply Nat.ltb_lt. }
  destruct (handleSubmit_inv _ _ _ _ _ Hsubmit)
    as [a [Ha [Hid [Hvalid [Hn [Ht [Hp Ho]]]]]]].
  apply validateForm_true in Hvalid as [Hne [Hlen Hover]].
  exists a. split; [assumption|]. split; [assumption|]. split; [assumption|].
  repeat split.
  - rewrite Hn in H.
    destruct (trim (formName formData) =? name a)%string; now inversion H.
  - rewrite Hn in H.
    destruct (trim (formName formData) =? name a)%string; inversion H.
    now subst.
  - rewrite Hn in H.
    destruct (trim (formName formData) =? name a)%string; inversion H.
    now subst.
  - rewrite Hn in H.
    destruct (trim (formName formData) =? name a)%string eqn:Hsame;
      inversion H. subst. now apply String.eqb_neq.
  - rewrite Ht in H. destruct (formTier formData =? tier a); now inversion H.
  - rewrite Ht in H.
    destruct (formTier formData =? tier a) eqn:Hsame; inversion H. subst.
    now apply Z.eqb_neq.
  - rewrite Hp in H.
    destruct (Bool.eqb (formPaused formData) (paused a)); now inversion H.
  - rewrite Hp in H.
    destruct (Bool.eqb (formPaused formData) (paused a)) eqn:Hsame;
      inversion H. subst. now apply eqb_false_iff.
  - rewrite Ho in H. destruct (rateLimitOverrideEnabled formData);
      inversion H. reflexivity.
  - rewrite Ho in H.
    destruct (rateLimitOverrideEnabled formData) eqn:Hon; inversion H.
    exists (customLimit formData), (resetWindowMinutes formData).
    destruct (Hover eq_refl). now repeat split.
Qed.

(** X22.  Submitting the dialog as it opens saves nothing: for an account
    whose name is free of surrounding white space and has between 1 and
    100 characters, whatever its tier and pause flag, [handleSubmit] on
    the form as it stands after mounting records no error and does not
    call [onSave]. *)
Theorem handleSubmit_untouched_form_saves_nothing a :
  trim (name a) = name a ->
  name a <> ""%string ->
  (String.length (name a) <= 100)%nat ->
  handleSubmit (Some a) (initialFormData (Some a))
  = (Some (mkFormErrors None None None), None).
Proof.
  intros Htrim Hne Hlen.
  unfold handleSubmit, validateForm, initialFormData, errorCount, updateCount.
  cbn [formName formTier formPaused rateLimitOverrideEnabled customLimit
       resetWindowMinutes andb].
  rewrite Htrim.
  apply String.eqb_neq in Hne. rewrite Hne.
  apply Nat.ltb_ge in Hlen. rewrite Hlen.
  rewrite String.eqb_refl, Z.eqb_refl, Bool.eqb_reflx. reflexivity.
Qed.

End EditDialogContract.

Section AccountsTabContract.
Import Dashboard.

Lemma issue_extends be calls :
  forall log,
    exists k, fst (issue be log calls) = log ++ firstn k calls.
Proof.
  induction calls as [|call rest IH]; intros log; cbn [issue].
  - exists 0%nat. cbn. now rewrite app_nil_r.
  - destruct (answer be (List.length log) call).
    + destruct (IH (log ++ [call])) as [k Hk]. exists (S k).
      rewrite Hk. cbn [firstn]. now rewrite <- app_assoc.
    + exists 1%nat. reflexivity.
Qed.

(** [handleSaveEdit] in terms of the calls it plans. *)
Lemma handleSaveEdit_run be accountId updates s :
  handleSaveEdit be accountId updates s
  = (Fulfilled tt,
     match issue be (apiCalls s) (plannedCalls accountId updates) with
     | (log, None) =>
         mkTab (confirmDelete s) (mkEditDialog false None false) None log
     | (log, Some e) =>
         mkTab (confirmDelete s)
               (mkEditDialog (isOpen (editDialog s))
                             (editAccount (editDialog s)) false)
               (Some (formatError be e)) log
     end).
Proof.
  unfold handleSaveEdit, plannedCalls, runAsync, tryCatch, bind, callApi,
    setEditDialog, setActionError.
  destruct (truthyString (newName updates));
    destruct (newTier updates) as [t|];
    destruct (newPaused updates) as [[|]|];
    destruct (rateLimitOverride updates) as [o|];
    cbn [app issue ret await throw apiCalls confirmDelete editDialog
         actionError isOpen editAccount];
    repeat match goal with
           | |- context [answer be ?n ?c] =>
               destruct (answer be n c);
               cbn [app issue ret await throw apiCalls confirmDelete editDialog
                    actionError isOpen editAccount async]
           end;
    reflexivity.
Qed.

(** What [issue] does, by the answers of the backend: either every call is
    fulfilled and all are made, or the calls up to and including the first
    rejected one are made and its error is kept. *)
Lemma issue_spec be calls :
  forall log,
    ((forall j call,
         nth_error calls j = Some call ->
         answer be (List.length log + j) call = Fulfilled tt)
     /\ issue be log calls = (log ++ calls, None))
    \/ (exists k call e,
          nth_error calls k = Some call
          /\ answer be (List.length log + k) call = Rejected e
          /\ (forall j c,
                 (j < k)%nat -> nth_error calls j = Some c ->
                 answer be (List.length log + j) c = Fulfilled tt)
          /\ issue be log calls = (log ++ firstn (S k) calls, Some e)).
Proof.
  induction calls as [|call rest IH]; intros log; cbn [issue].
  - left. split; [intros [|j] c; discriminate|]. now rewrite app_nil_r.
  - destruct (answer be (List.length log) call) as [[]|e] eqn:Hanswer.
    + assert (Hshift : forall j,
                 (List.length (log ++ [call]) + j
                  = List.length log + S j)%nat)
        by (intros j; rewrite length_app; cbn; lia).
      destruct (IH (log ++ [call]))
        as [[Hall Hrun] | [k [c [e [Hk [Hrej [Hbefore Hrun]]]]]]].
      * left. split.
        -- intros [|j] c Hj; cbn [nth_error] in Hj.
           ++ injection Hj as <-. now rewrite Nat.add_0_r.
           ++ rewrite <- Hshift. now apply Hall.
        -- rewrite Hrun. now rewrite <- app_assoc.
      * right. exists (S k), c, e. split; [exact Hk|].
        split; [now rewrite <- Hshift|]. split.
        -- intros [|j] c' Hlt Hj; cbn [nth_error] in Hj.
           ++ injection Hj as <-. now rewrite Nat.add_0_r.
           ++ rewrite <- Hshift. apply Hbefore; [lia | exact Hj].
        -- rewrite Hrun. cbn [firstn]. now rewrite <- app_assoc.
    + right. exists 0%nat, call, e. split; [reflexivity|].
      split; [now rewrite Nat.add_0_r|]. split; [intros j c Hlt; lia|].
      reflexivity.
Qed.

(** X23.  [handleSaveEdit] never rejects, and the answers of the API
    decide what it does.  It makes the calls it planned for the updates, in
    order: rename, tier, pause or resume, rate-limit override, reload.
    When the API fulfils every one of them, all are made, the dialog is
    closed and the error cleared.  Otherwise, with the [k]-th planned call
    the first the API rejects, exactly the calls up to and including that
    one are made, the dialog stays as it was, no longer loading, and the
    error shown is that of the rejected call.  The delete confirmation is
    untouched in both cases. *)
Theorem handleSaveEdit_calls_in_order be accountId updates s :
  fst (handleSaveEdit be accountId updates s) = Fulfilled tt
  /\ (((forall j call,
          nth_error (plannedCalls accountId updates) j = Some call ->
          answer be (List.length (apiCalls s) + j) call = Fulfilled tt)
       /\ snd (handleSaveEdit be accountId updates s)
          = mkTab (confirmDelete s) (mkEditDialog false None false) None
                  (apiCalls s ++ plannedCalls accountId updates))
      \/ (exists k call e,
            nth_error (plannedCalls accountId updates) k = Some call
            /\ answer be (List.length (apiCalls s) + k) call = Rejected e
            /\ (forall j c,
                   (j < k)%nat ->
                   nth_error (plannedCalls accountId updates) j = Some c ->
                   answer be (List.length (apiCalls s) + j) c = Fulfilled tt)
            /\ snd (handleSaveEdit be accountId updates s)
               = mkTab (confirmDelete s)
                       (mkEditDialog (isOpen (editDialog s))
                                     (editAccount (editDialog s)) false)
                       (Some (formatError be e))
                       (apiCalls s
                        ++ firstn (S k) (plannedCalls accountId updates)))).
Proof.
  rewrite handleSaveEdit_run. cbn [fst snd]. split; [reflexivity|].
  destruct (issue_spec be (plannedCalls accountId updates) (apiCalls s))
    as [[Hall Hrun] | [k [call [e [Hk [Hrej [Hbefore Hrun]]]]]]];
    rewrite Hrun.
  - left. now split.
  - right. exists k, call, e. now repeat split.
Qed.

Lemma In_firstn {A} (x : A) k l : In x (firstn k l) -> In x l.
Proof.
  revert l. induction k as [|k IH]; intros [|y l]; cbn; try tauto.
  intros [-> | Hin]; [now left | right; now apply IH].
Qed.

(** X24.  Saving what the edit dialog submitted only ever asks the API
    for changes to the account of the dialog, and never for anything the
    form would not validate: a rename carries the trimmed name, of 1 to
    100 characters; a rate-limit override is within its bounds; no
    account is removed. *)
Theorem saving_a_submitted_edit_is_well_formed
    be account formData errors accountId updates s call :
  handleSubmit account formData = (errors, Some (accountId, updates)) ->
  In call (apiCalls (snd (handleSaveEdit be accountId updates s))) ->
  In call (apiCalls s)
  \/ exists a,
      account = Some a
      /\ match call with
         | RenameAccount i n =>
             i = id a /\ n = trim (formName formData) /\ n <> ""%string
             /\ (String.length n <= 100)%nat
         | UpdateAccountTier i t => i = id a /\ t = formTier formData
         | PauseAccount i => i = id a /\ formPaused formData = true
         | ResumeAccount i => i = id a /\ formPaused formData = false
         | UpdateAccountRateLimit i o =>
             i = id a /\ enabled o = true
             /\ overrideLimit o = Some (customLimit formData)
             /\ overrideWindow o = Some (resetWindowMinutes formData)
             /\ 1 <= customLimit formData <= 100000
             /\ 1 <= resetWindowMinutes formData <= 1440
         | RemoveAccount _ _ => False
         | LoadAccounts => True
         end.
Proof.
  intros Hsubmit Hin.
  destruct (handleSubmit_inv _ _ _ _ _ Hsubmit)
    as [a [Ha [Hid [Hvalid [Hn [Ht [Hp Ho]]]]]]].
  apply validateForm_true in Hvalid as [Hne [Hlen Hover]].
  rewrite handleSaveEdit_run in Hin. cbn [snd] in Hin.
  destruct (issue_extends be (plannedCalls accountId updates) (apiCalls s))
    as [k Hk].
  assert (Hlog : In call (apiCalls s ++ firstn k (plannedCalls accountId updates))).
  { rewrite <- Hk.
    destruct (issue be (apiCalls s) (plannedCalls accountId updates))
      as [log [e|]]; exact Hin. }
  apply in_app_or in Hlog as [Hold | Hnew]; [now left|].
  right. exists a. split; [assumption|].
  apply In_firstn in Hnew. unfold plannedCalls in Hnew.
  rewrite Hn, Ht, Hp, Ho, Hid in Hnew.
  repeat (apply in_app_or in Hnew as [Hnew | Hnew]).
  - destruct (trim (formName formData) =? name a)%string;
      cbn [negb truthyString orEmpty] in Hnew; [destruct Hnew|].
    apply String.eqb_neq in Hne. rewrite Hne in Hnew. cbn in Hnew.
    destruct Hnew as [<- | []]. apply String.eqb_neq in Hne.
    now repeat split.
  - destruct (formTier formData =? tier a); cbn in Hnew; [destruct Hnew|].
    destruct Hnew as [<- | []]. now split.
  - destruct (Bool.eqb (formPaused formData) (paused a)); cbn [negb] in Hnew;
      [destruct Hnew|].
    destruct (formPaused formData); destruct Hnew as [<- | []]; now split.
  - destruct (rateLimitOverrideEnabled formData) eqn:Hon;
      [|destruct Hnew].
    destruct Hnew as [<- | []]. destruct (Hover eq_refl).
    now repeat split.
  - destruct Hnew as [<- | []]. exact I.
Qed.

(** X25.  [handleConfirmDelete] never rejects, and asks the API to remove
    an account only when what was typed equals the account name, passing
    that name twice; when it differs, no call is made, the dialog stays,
    and the mismatch is shown as the error. *)
Theorem handleConfirmDelete_requires_exact_name be s :
  fst (handleConfirmDelete be s) = Fulfilled tt
  /\ (confirmInput (confirmDelete s) <> accountName (confirmDelete s) ->
      snd (handleConfirmDelete be s)
      = mkTab (confirmDelete s) (editDialog s)
          (Some "Account name does not match. Please type the exact account name.")
          (apiCalls s))
  /\ (forall n c,
        In (RemoveAccount n c) (apiCalls (snd (handleConfirmDelete be s))) ->
        In (RemoveAccount n c) (apiCalls s)
        \/ (n = accountName (confirmDelete s) /\ c = n
            /\ confirmInput (confirmDelete s) = n)).
Proof.
  unfold handleConfirmDelete, runAsync, tryCatch, bind, callApi,
    setConfirmDelete, setActionError.
  destruct (confirmInput (confirmDelete s) =? accountName (confirmDelete s))%string
    eqn:Hsame; cbn [negb ret fst snd async].
  - apply String.eqb_eq in Hsame.
    destruct (answer be (List.length (apiCalls s)) _);
      cbn [await ret throw apiCalls fst snd async].
    + destruct (answer be _ LoadAccounts);
        cbn [await ret throw apiCalls fst snd async];
        (split; [reflexivity|]); (split; [intros Hne; contradiction|]);
        intros n c Hin;
        repeat (apply in_app_or in Hin as [Hin | Hin]);
        try (now left);
        try (destruct Hin as [Heq | []]; inversion Heq; subst; right;
             now repeat split).
    + split; [reflexivity|]. split; [intros Hne; contradiction|].
      intros n c Hin. apply in_app_or in Hin as [Hin | Hin]; [now left|].
      destruct Hin as [Heq | []]. inversion Heq; subst. right.
      now repeat split.
  - split; [reflexivity|]. split; [reflexivity|].
    intros n c Hin. now left.
Qed.

End AccountsTabContract.

Section AddFormContract.
Import Dashboard.

(** X26.  [handleAddAccount] starts the OAuth flow only for an account
    that has a name and no base URL, passing the account of the form as
    it is; with a base URL it goes straight to the API-key step without
    calling anything, and without a name it only reports the error. *)
Theorem handleAddAccount_starts_oauth_only_without_base_url props s :
  (forall params,
      In (OnAddAccount params) (formCalls (snd (handleAddAccount props s))) ->
      In (OnAddAccount params) (formCalls s)
      \/ (params = newAccount s
          /\ newAccountName params <> ""%string
          /\ newAccountBaseUrl params = ""%string))
  /\ (newAccountName (newAccount s) <> ""%string ->
      newAccountBaseUrl (newAccount s) <> ""%string ->
      handleAddAccount props s
      = (Fulfilled tt,
         mkAddForm apikey (authCode s) (apiKey s) (sessionId s)
                   (newAccount s) (formCalls s)))
  /\ (newAccountName (newAccount s) = ""%string ->
      handleAddAccount props s
      = (Fulfilled tt,
         mkAddForm (authStep s) (authCode s) (apiKey s) (sessionId s)
                   (newAccount s)
                   (formCalls s ++ [OnError "Account name is required"]))).
Proof.
  unfold handleAddAccount, runAsync, bind, readForm, isEmpty, emit, setAuthStep,
    setSessionId.
  destruct (newAccountName (newAccount s) =? "")%string eqn:Hname;
    cbn [ret fst snd async formCalls newAccount].
  - apply String.eqb_eq in Hname.
    split; [|split; [intros Hne; contradiction | reflexivity]].
    intros params Hin. apply in_app_or in Hin as [Hin | [Heq | []]];
      [now left | discriminate Heq].
  - apply String.eqb_neq in Hname.
    destruct (newAccountBaseUrl (newAccount s) =? "")%string eqn:Hbase;
      cbn [negb ret fst snd async formCalls newAccount].
    + apply String.eqb_eq in Hbase.
      split; [|split; [intros _ Hne; contradiction
                      | intros Hempty; contradiction]].
      intros params Hin.
      assert (Hcases : In (OnAddAccount params)
                (formCalls s ++ [OnAddAccount (newAccount s)])
              \/ In (OnAddAccount params)
                   ((formCalls s ++ [OnAddAccount (newAccount s)])
                    ++ [OnError "Failed to initialize OAuth flow"])
              \/ exists u,
                  In (OnAddAccount params)
                     ((formCalls s ++ [OnAddAccount (newAccount s)])
                      ++ [WindowOpen u])).
      { destruct (onAddAccount props (List.length (formCalls s)) (newAccount s))
          as [[[u i|[|] b]|]|e];
          cbn [await ret throw fst snd async formCalls] in Hin;
          destruct (windowDefined props);
          cbn [ret fst snd async formCalls] in Hin;
          try (now left);
          try (right; left; exact Hin);
          try (right; right; eexists; exact Hin). }
      assert (Hcore : In (OnAddAccount params)
                (formCalls s ++ [OnAddAccount (newAccount s)])).
      { destruct Hcases as [H | [H | [u H]]]; [exact H | |];
          apply in_app_or in H as [H | [Heq | []]];
          [exact H | discriminate Heq | exact H | discriminate Heq]. }
      apply in_app_or in Hcore as [Hold | [Heq | []]]; [now left|].
      injection Heq as <-. right. now repeat split.
    + split; [intros params Hin; now left|].
      split; [reflexivity | intros Hempty; contradiction].
Qed.

(** X27.  The session id makes the round trip through the form: when
    [onAddAccount] resolves to an OAuth session, [handleAddAccount] opens
    the authorization URL, if there is a window, stores the session id
    and moves to the code step; once a code is typed, [handleCodeSubmit]
    calls [onCompleteAccount] with exactly that session id and that code. *)
Theorem session_id_round_trip props s url sid typed :
  newAccountName (newAccount s) <> ""%string ->
  newAccountBaseUrl (newAccount s) = ""%string ->
  onAddAccount props (List.length (formCalls s)) (newAccount s)
  = Fulfilled (Some (OAuthStarted url sid)) ->
  typed <> ""%string ->
  authStep (snd (handleAddAccount props s)) = code
  /\ sessionId (snd (handleAddAccount props s)) = Some sid
  /\ (windowDefined props = true ->
      In (WindowOpen (Some url))
         (formCalls (snd (handleAddAccount props s))))
  /\ In (OnCompleteAccount (Some sid) typed)
        (formCalls
           (snd (handleCodeSubmit props
                   (snd (setAuthCode typed
                           (snd (handleAddAccount props s))))))).
Proof.
  intros Hname Hbase Hinit Htyped.
  apply String.eqb_neq in Hname. apply String.eqb_eq in Hbase.
  apply String.eqb_neq in Htyped.
  unfold handleAddAccount, handleCodeSubmit, runAsync, bind, readForm, isEmpty,
    emit, setAuthStep, setSessionId, setAuthCode.
  rewrite Hname, Hbase. cbn [negb formCalls newAccount].
  rewrite Hinit.
  destruct (windowDefined props);
    cbn [await ret throw fst snd async formCalls authStep sessionId authCode
         newAccount];
    rewrite Htyped;
    cbn [await ret throw fst snd async formCalls authStep sessionId authCode
         newAccount].
  - split; [reflexivity|]. split; [reflexivity|].
    split; [intros _; apply in_or_app; right; now left|].
    destruct (onCompleteAccount props _ (Some sid) typed);
      cbn [await ret throw fst snd async formCalls];
      repeat (apply in_or_app; first [right; now left | left]).
  - split; [reflexivity|]. split; [reflexivity|].
    split; [discriminate|].
    destruct (onCompleteAccount props _ (Some sid) typed);
      cbn [await ret throw fst snd async formCalls];
      repeat (apply in_or_app; first [right; now left | left]).
Qed.

(** X28.  [handleCodeSubmit] keeps what was typed when completion fails:
    it rejects with the error of [onCompleteAccount], leaves the step, the
    code, the session id and the account of the form as they were, and
    does not announce success.  Only a fulfilled completion resets the
    form and calls [onSuccess]; an empty code calls nothing but
    [onError]. *)
Theorem handleCodeSubmit_outcomes props s :
  (authCode s = ""%string ->
   handleCodeSubmit props s
   = (Fulfilled tt,
      mkAddForm (authStep s) (authCode s) (apiKey s) (sessionId s)
                (newAccount s)
                (formCalls s ++ [OnError "Authorization code is required"])))
  /\ (forall e,
        authCode s <> ""%string ->
        onCompleteAccount props (List.length (formCalls s)) (sessionId s)
          (authCode s) = Rejected e ->
        handleCodeSubmit props s
        = (Rejected e,
           mkAddForm (authStep s) (authCode s) (apiKey s) (sessionId s)
                     (newAccount s)
                     (formCalls s
                      ++ [OnCompleteAccount (sessionId s) (authCode s)])))
  /\ (authCode s <> ""%string ->
      onCompleteAccount props (List.length (formCalls s)) (sessionId s)
        (authCode s) = Fulfilled tt ->
      handleCodeSubmit props s
      = (Fulfilled tt,
         mkAddForm form "" (apiKey s) (Some ""%string) blankAccount
                   (formCalls s
                    ++ [OnCompleteAccount (sessionId s) (authCode s);
                        OnSuccess]))).
Proof.
  unfold handleCodeSubmit, runAsync, bind, readForm, isEmpty, emit, setAuthStep,
    setAuthCode, setSessionId, setNewAccount.
  split; [|split].
  - intros Hempty. apply String.eqb_eq in Hempty. now rewrite Hempty.
  - intros e Hcode Hrejected. apply String.eqb_neq in Hcode.
    rewrite Hcode. cbn [formCalls authCode sessionId]. now rewrite Hrejected.
  - intros Hcode Hdone. apply String.eqb_neq in Hcode.
    rewrite Hcode. cbn [formCalls authCode sessionId]. rewrite Hdone.
    cbn [await ret async formCalls authStep authCode apiKey sessionId
         newAccount].
    now rewrite <- app_assoc.
Qed.

(** X29.  [handleApiKeySubmit] creates a direct account only with a key
    that was typed, for the name, tier and base URL of the form; when the
    creation is rejected the handler rejects too, and the form keeps the
    key and the account as typed. *)
Theorem handleApiKeySubmit_outcomes props s :
  (forall n k t b,
      In (OnAddDirectAccount n k t b)
         (formCalls (snd (handleApiKeySubmit props s))) ->
      In (OnAddDirectAccount n k t b) (formCalls s)
      \/ (k = apiKey s /\ k <> ""%string
          /\ n = newAccountName (newAccount s)
          /\ t = newAccountTier (newAccount s)
          /\ b = newAccountBaseUrl (newAccount s)))
  /\ (forall e,
        apiKey s <> ""%string ->
        onAddDirectAccount props (List.length (formCalls s))
          (newAccountName (newAccount s)) (apiKey s)
          (newAccountTier (newAccount s)) (newAccountBaseUrl (newAccount s))
        = Rejected e ->
        handleApiKeySubmit props s
        = (Rejected e,
           mkAddForm (authStep s) (authCode s) (apiKey s) (sessionId s)
                     (newAccount s)
                     (formCalls s
                      ++ [OnAddDirectAccount (newAccountName (newAccount s))
                            (apiKey s) (newAccountTier (newAccount s))
                            (newAccountBaseUrl (newAccount s))]))).
Proof.
  unfold handleApiKeySubmit, runAsync, bind, readForm, isEmpty, emit,
    setAuthStep, setApiKey, setNewAccount.
  split.
  - intros n k t b.
    destruct (apiKey s =? "")%string eqn:Hkey;
      cbn [ret fst snd async formCalls apiKey newAccount].
    + intros Hin. apply in_app_or in Hin as [Hin | [Heq | []]];
        [now left | discriminate Heq].
    + apply String.eqb_neq in Hkey.
      destruct (onAddDirectAccount props _ _ _ _ _);
        cbn [await ret throw fst snd async formCalls];
        intros Hin;
        repeat (apply in_app_or in Hin as [Hin | Hin]);
        try (now left);
        try (destruct Hin as [Heq | []]; [inversion Heq; subst; right;
             now repeat split]);
        try (destruct Hin as [Heq | []]; discriminate Heq).
  - intros e Hkey Hrejected. apply String.eqb_neq in Hkey.
    rewrite Hkey. cbn [formCalls apiKey newAccount]. now rewrite Hrejected.
Qed.

End AddFormContract.

(* ------------------------------------------------------------------ *)
(** * The further properties on concrete inputs *)

Section AttemptContractExamples.
Import Proxy QueueReading Samples MoreSamples.

Lemma proxyWithAccount_returns_only_accepted_responses_witness :
  fst (proxyWithAccount rtFailover postMessages messagesUrl acctB meta1
         buffered buffered 0 taggedCtx emptyWorld)
  = Fulfilled (Some r200)
  /\ exists response,
      attemptResponse rtFailover postMessages messagesUrl acctB buffered
        taggedCtx emptyWorld = Some response
      /\ status response = 200
      /\ takesRateLimitBranch taggedCtx response = false
      /\ forwardToClient rtFailover (S (S (clock emptyWorld)))
           (accountForward postMessages messagesUrl acctB meta1 buffered
              0%nat response)
         = Normal (Fulfilled r200).
Proof.
  split; [reflexivity|].
  apply (proxyWithAccount_returns_only_accepted_responses rtFailover
           postMessages messagesUrl acctB meta1 buffered buffered 0 taggedCtx
           emptyWorld r200).
  reflexivity.
Defined.

Lemma out_of_range_reset_fails_over_unmarked_witness :
  takesRateLimitBranch farResetCtx r200 = true
  /\ validTimeValue farReset = false
  /\ proxyWithAccount rtFailover postMessages messagesUrl acctB meta1 buffered
       buffered 0 farResetCtx emptyWorld
     = (Fulfilled None,
        afterUpstream
          (accountRequest postMessages messagesUrl acctB buffered farResetCtx
             "token-acct-b")
          (afterToken rtFailover acctB emptyWorld)).
Proof.
  split; [reflexivity|]. split; [reflexivity|].
  apply (out_of_range_reset_fails_over_unmarked rtFailover postMessages
           messagesUrl acctB meta1 buffered buffered 0 farResetCtx emptyWorld
           "token-acct-b" r200 farReset);
    reflexivity.
Defined.

Lemma failoverChain_appends_and_bounds_upstream_witness :
  failoverChain rtFailover postMessages messagesUrl meta1 buffered buffered
    taggedCtx [acctA] 0 emptyWorld = Some ([emptyWorld], afterA)
  /\ (exists queued, asyncQueue afterA = asyncQueue emptyWorld ++ queued)
  /\ (List.length (upstreamCalls afterA)
      <= List.length (upstreamCalls emptyWorld) + List.length [acctA])%nat.
Proof.
  split; [reflexivity|].
  apply (failoverChain_appends_and_bounds_upstream rtFailover postMessages
           messagesUrl meta1 buffered buffered taggedCtx [acctA] 0%nat
           emptyWorld [emptyWorld] afterA).
  reflexivity.
Defined.

End AttemptContractExamples.

Section OAuthContractExamples.
Import OAuthFlow OAuthSamples OAuthMoreSamples.

Lemma complete_rejection_leaves_accounts_witness :
  fst (complete (platform (Rejected (Error "invalid_grant"))) completeWork
         (flowOf max None) storeWithWork)
  = Rejected (Error "invalid_grant")
  /\ accounts (snd (complete (platform (Rejected (Error "invalid_grant")))
                      completeWork (flowOf max None) storeWithWork))
     = accounts storeWithWork.
Proof.
  split; [reflexivity|].
  apply (complete_rejection_leaves_accounts
           (platform (Rejected (Error "invalid_grant"))) completeWork
           (flowOf max None) storeWithWork (Error "invalid_grant")).
  reflexivity.
Defined.

Lemma complete_auth_type_witness :
  (authType (mkAccountCreated "uuid-0" "work" 5 "anthropic" oauth) = api_key
   <-> mode (flowOf max None) = console
       \/ truthyString (refreshToken maxTokens) = false)
  /\ (authType (mkAccountCreated "uuid-0" "work" 5 "anthropic" oauth) = oauth
      <-> mode (flowOf max None) = max
          /\ truthyString (refreshToken maxTokens) = true).
Proof.
  apply (complete_auth_type (platform (Fulfilled maxTokens)) completeWork
           (flowOf max None) emptyStore (anthropic (Fulfilled maxTokens))
           maxTokens (mkAccountCreated "uuid-0" "work" 5 "anthropic" oauth)
           (snd (complete (platform (Fulfilled maxTokens)) completeWork
                   (flowOf max None) emptyStore)));
    reflexivity.
Defined.

Lemma complete_reports_the_stored_row_witness :
  exists row,
    accounts (snd (complete (platform (Fulfilled maxTokens))
                     (mkCompleteOptions "session-1" "code-1" None "work")
                     (flowOf console None) emptyStore))
    = accounts emptyStore ++ [row]
    /\ createdId (mkAccountCreated "uuid-0" "work" 1 "anthropic" api_key)
       = randomUUID (platform (Fulfilled maxTokens)) (calls emptyStore)
    /\ row_id row
       = randomUUID (platform (Fulfilled maxTokens)) (calls emptyStore)
    /\ createdName (mkAccountCreated "uuid-0" "work" 1 "anthropic" api_key)
       = "work"%string
    /\ createdTier (mkAccountCreated "uuid-0" "work" 1 "anthropic" api_key) = 1
    /\ row_account_tier row = 1
    /\ createdProvider (mkAccountCreated "uuid-0" "work" 1 "anthropic" api_key)
       = "anthropic"%string
    /\ row_provider row = "anthropic"%string.
Proof.
  apply (complete_reports_the_stored_row (platform (Fulfilled maxTokens))
           (mkCompleteOptions "session-1" "code-1" None "work")
           (flowOf console None) emptyStore
           (mkAccountCreated "uuid-0" "work" 1 "anthropic" api_key)).
  reflexivity.
Defined.

Lemma complete_oauth_row_holds_exchanged_tokens_witness :
  exists p tokens row,
    getOAuthProvider (platform (Fulfilled maxTokens)) "anthropic" = Some p
    /\ exchangeCode p (code completeWork) (verifier (pkce (flowOf max None)))
         (oauthConfig (flowOf max None)) = Fulfilled tokens
    /\ accounts (snd (complete (platform (Fulfilled maxTokens)) completeWork
                        (flowOf max (Some "https://llm.example.org"))
                        emptyStore))
       = accounts emptyStore ++ [row]
    /\ truthyString (refreshToken tokens) = true
    /\ row_refresh_token row = refreshToken tokens
    /\ row_access_token row = Some (accessToken tokens)
    /\ row_expires_at row = Some (expiresAt tokens)
    /\ row_base_url row = orUndefined (Some "https://llm.example.org"%string).
Proof.
  apply (complete_oauth_row_holds_exchanged_tokens
           (platform (Fulfilled maxTokens)) completeWork
           (flowOf max (Some "https://llm.example.org")) emptyStore
           (mkAccountCreated "uuid-0" "work" 5 "anthropic" oauth));
    reflexivity.
Defined.

Lemma complete_api_key_row_witness :
  exists p tokens response key row,
    getOAuthProvider (platform (Fulfilled maxTokens)) "anthropic" = Some p
    /\ exchangeCode p (code completeWork)
         (verifier (pkce (flowOf console None)))
         (oauthConfig (flowOf console None)) = Fulfilled tokens
    /\ fetchCreateApiKey (platform (Fulfilled maxTokens))
         (S (calls emptyStore)) (accessToken tokens) = Fulfilled response
    /\ ok response = true
    /\ json_raw_key response = Fulfilled key
    /\ accounts (snd (complete (platform (Fulfilled maxTokens)) completeWork
                        (flowOf console None) emptyStore))
       = accounts emptyStore ++ [row]
    /\ row_api_key row = key
    /\ row_base_url row = None.
Proof.
  apply (complete_api_key_row (platform (Fulfilled maxTokens)) completeWork
           (flowOf console None) emptyStore
           (mkAccountCreated "uuid-0" "work" 5 "anthropic" api_key));
    reflexivity.
Defined.

Lemma begin_result_witness :
  fst (begin (platform (Fulfilled maxTokens)) beginHome storeWithWork)
  = Fulfilled homeFlow
  /\ exists oauthProvider,
      getOAuthProvider (platform (Fulfilled maxTokens)) "anthropic"
      = Some oauthProvider
      /\ clientId (oauthConfig homeFlow)
         = runtimeClientId (platform (Fulfilled maxTokens)).
Proof.
  split; [reflexivity|].
  destruct (begin_result (platform (Fulfilled maxTokens)) beginHome
              storeWithWork homeFlow (mkStore [workRow] 2) eq_refl)
    as [oauthProvider [Hp [_ [_ [Hclient _]]]]].
  exists oauthProvider. exact (conj Hp Hclient).
Defined.

Lemma begin_then_complete_keeps_names_unique_witness :
  NoDup (map row_name (accounts storeWithWork))
  /\ fst (begin (platform (Fulfilled maxTokens)) beginHome storeWithWork)
     = Fulfilled homeFlow
  /\ fst (complete (platform (Fulfilled maxTokens)) completeHome homeFlow
            (snd (begin (platform (Fulfilled maxTokens)) beginHome
                    storeWithWork)))
     = Fulfilled homeCreated
  /\ NoDup
       (map row_name
          (accounts
             (snd (complete (platform (Fulfilled maxTokens)) completeHome
                     homeFlow
                     (snd (begin (platform (Fulfilled maxTokens)) beginHome
                             storeWithWork)))))).
Proof.
  assert (Hunique : NoDup (map row_name (accounts storeWithWork))).
  { repeat constructor. intros []. }
  split; [exact Hunique|]. split; [reflexivity|]. split; [reflexivity|].
  apply (begin_then_complete_keeps_names_unique
           (platform (Fulfilled maxTokens)) beginHome completeHome homeFlow
           storeWithWork homeFlow
           (snd (begin (platform (Fulfilled maxTokens)) beginHome
                   storeWithWork))
           homeCreated
           (snd (complete (platform (Fulfilled maxTokens)) completeHome
                   homeFlow
                   (snd (begin (platform (Fulfilled maxTokens)) beginHome
                           storeWithWork)))));
    [exact Hunique | reflexivity | reflexivity | reflexivity | reflexivity].
Defined.

End OAuthContractExamples.

Section DashboardExamples.
Import Dashboard DashboardSamples.

Lemma handleSubmit_sends_valid_changes_witness :
  handleSubmit (Some work) editedForm
  = (Some (mkFormErrors None None None),
     Some ("acc-1"%string,
           mkAccountUpdates (Some "team"%string) None (Some true)
             (Some (mkRateLimitOverride true (Some 500) (Some 30)))))
  /\ exists a,
      Some work = Some a
      /\ "acc-1"%string = id a
      /\ forall n, Some "team"%string = Some n ->
           n = trim (formName editedForm) /\ n <> ""%string
           /\ (String.length n <= 100)%nat /\ n <> name a.
Proof.
  split; [reflexivity|].
  destruct (handleSubmit_sends_valid_changes (Some work) editedForm
              (Some (mkFormErrors None None None)) "acc-1"
              (mkAccountUpdates (Some "team"%string) None (Some true)
                 (Some (mkRateLimitOverride true (Some 500) (Some 30))))
              eq_refl)
    as [a [Ha [Hid [_ [Hname _]]]]].
  exists a. exact (conj Ha (conj Hid Hname)).
Defined.

Lemma handleSubmit_untouched_form_saves_nothing_witness :
  trim (name work) = name work
  /\ handleSubmit (Some work) (initialFormData (Some work))
     = (Some (mkFormErrors None None None), None).
Proof.
  split; [reflexivity|].
  apply (handleSubmit_untouched_form_saves_nothing work);
    [reflexivity | discriminate | cbn; lia].
Defined.

Lemma saving_a_submitted_edit_is_well_formed_witness :
  In (RenameAccount "acc-1" "team")
     (apiCalls
        (snd (handleSaveEdit refusesTier "acc-1"
                (mkAccountUpdates (Some "team"%string) None (Some true)
                   (Some (mkRateLimitOverride true (Some 500) (Some 30))))
                idleTab)))
  /\ (In (RenameAccount "acc-1" "team") (apiCalls idleTab)
      \/ exists a,
          Some work = Some a
          /\ ("acc-1"%string = id a
              /\ "team"%string = trim (formName editedForm)
              /\ "team"%string <> ""%string
              /\ (String.length "team" <= 100)%nat)).
Proof.
  assert (Hin : In (RenameAccount "acc-1" "team")
                  (apiCalls
                     (snd (handleSaveEdit refusesTier "acc-1"
                             (mkAccountUpdates (Some "team"%string) None
                                (Some true)
                                (Some (mkRateLimitOverride true (Some 500)
                                         (Some 30))))
                             idleTab)))).
  { left. reflexivity. }
  split; [exact Hin|].
  exact (saving_a_submitted_edit_is_well_formed refusesTier (Some work)
           editedForm (Some (mkFormErrors None None None)) "acc-1"
           (mkAccountUpdates (Some "team"%string) None (Some true)
              (Some (mkRateLimitOverride true (Some 500) (Some 30))))
           idleTab (RenameAccount "acc-1" "team") eq_refl Hin).
Defined.

Lemma session_id_round_trip_witness :
  authStep (snd (handleAddAccount oauthProps (namedForm ""))) = code
  /\ sessionId (snd (handleAddAccount oauthProps (namedForm "")))
     = Some "sess-7"%string
  /\ (windowDefined oauthProps = true ->
      In (WindowOpen (Some "https://claude.ai/oauth"%string))
         (formCalls (snd (handleAddAccount oauthProps (namedForm "")))))
  /\ In (OnCompleteAccount (Some "sess-7"%string) "4/0Ab")
        (formCalls
           (snd (handleCodeSubmit oauthProps
                   (snd (setAuthCode "4/0Ab"
                           (snd (handleAddAccount oauthProps
                                   (namedForm "")))))))).
Proof.
  apply (session_id_round_trip oauthProps (namedForm "")
           "https://claude.ai/oauth" "sess-7" "4/0Ab");
    [discriminate | reflexivity | reflexivity | discriminate].
Defined.

End DashboardExamples.
